(** * rsz plotting: a shallow embedding of [core_rsz/plotting.py]

    The module draws colour-magnitude diagrams and sky maps of galaxy
    clusters on matplotlib axes.  The embedding keeps the shape of the Python
    code: every plotting function is a computation over the axes object it
    mutates, and may raise a Python exception.

    Numbers.  Python floats are idealised: catalogue values, plot limits and
    redshifts are rationals ([Q]); the only transcendental computation, the
    aspect ratio of the sky map, is carried out in the reals ([R]).  Rounding
    error of IEEE arithmetic is therefore outside this development. *)

From Stdlib Require Import QArith Qround Qabs Reals Lra Lia ZArith Ascii.
From Stdlib Require Lqa.
From stdpp Require Import gmap strings list pretty.

Local Open Scope string_scope.
Local Open Scope list_scope.

(** ** Python exceptions and the computation monads *)

(** A dict key: a band or colour name, or a redshift. *)
Inductive pykey : Type :=
| KStr (s : string)
| KNum (q : Q).

Inductive exn : Type :=
| KeyError (key : pykey)
| AttributeError (attr : string)
| ValueError (msg : string)
| IndexError (msg : string).

Inductive outcome (A : Type) : Type :=
| Returns (a : A)
| Raises (e : exn).
Arguments Returns {A} a.
Arguments Raises {A} e.

#[global] Instance outcome_ret : MRet outcome := fun A a => Returns a.
#[global] Instance outcome_bind : MBind outcome := fun A B f m =>
  match m with
  | Returns a => f a
  | Raises e => Raises e
  end.

(** A computation over a mutable object of type [St]: the object is threaded
    through, and keeps every mutation made before an exception was raised. *)
Definition Py (St A : Type) : Type := St -> outcome A * St.

#[global] Instance Py_ret {St} : MRet (Py St) := fun A a st => (Returns a, st).
#[global] Instance Py_bind {St} : MBind (Py St) := fun A B f m st =>
  match m st with
  | (Returns a, st') => f a st'
  | (Raises e, st') => (Raises e, st')
  end.

Definition modify {St} (f : St -> St) : Py St unit :=
  fun st => (Returns tt, f st).

Definition lift {St A} (o : outcome A) : Py St A := fun st => (o, st).

(** [for x in l: body x] *)
Fixpoint for_each {St A} (l : list A) (body : A -> Py St unit) : Py St unit :=
  match l with
  | [] => mret tt
  | x :: l' => body x ;; for_each l' body
  end.

(** [[x for x in l if p x]] with a condition that may raise. *)
Fixpoint comprehension_if {A} (p : A -> outcome bool) (l : list A)
  : outcome (list A) :=
  match l with
  | [] => Returns []
  | x :: l' =>
      b ← p x;
      rest ← comprehension_if p l';
      mret (if b : bool then x :: rest else rest)
  end.

(** [d[k]] on a dict. *)
Definition subscript {V} (d : gmap string V) (k : string) : outcome V :=
  match d !! k with
  | Some v => Returns v
  | None => Raises (KeyError (KStr k))
  end.

(** ** Python builtins used by the module *)

Definition Qltb (x y : Q) : bool :=
  (Qnum x * QDen y <? Qnum y * QDen x)%Z.

(** [min(l)] and [max(l)]: the first smallest (largest) element; an empty
    argument raises [ValueError]. *)
Definition py_min (l : list Q) : outcome Q :=
  match l with
  | [] => Raises (ValueError "min() arg is an empty sequence")
  | x :: l' => Returns (fold_left (fun m y => if Qltb y m then y else m) l' x)
  end.

Definition py_max (l : list Q) : outcome Q :=
  match l with
  | [] => Raises (ValueError "max() arg is an empty sequence")
  | x :: l' => Returns (fold_left (fun m y => if Qltb m y then y else m) l' x)
  end.

(** [s.replace(old, new)]: every non-overlapping occurrence, left to right.
    [skip] counts the characters of a match still to be dropped. *)
Fixpoint replace_go (old new : string) (skip : nat) (s : string) : string :=
  match s with
  | EmptyString => EmptyString
  | String c s' =>
      match skip with
      | S k => replace_go old new k s'
      | O =>
          if String.prefix old s
          then new +:+ replace_go old new (String.length old - 1) s'
          else String c (replace_go old new 0 s')
      end
  end.

Fixpoint interleave (new s : string) : string :=
  match s with
  | EmptyString => new
  | String c s' => new +:+ String c (interleave new s')
  end.

Definition replace (old new s : string) : string :=
  match old with
  | EmptyString => interleave new s
  | _ => replace_go old new 0 s
  end.

(** ** Data model

    The classes below live in the modules [data] and [config], which the
    plotting module only imports. *)

(** Modelled from the spec: a Magnitude and a Color are a value with an
    uncertainty ([.value], [.error]); the class itself is in module [data]. *)
Record Data : Type := { value : Q; error : Q }.

(** Modelled from the spec: AsymmetricData of module [data], a value with
    separate upper and lower uncertainties. *)
Record AsymmetricData : Type :=
  { asym_value : Q; upper_error : Q; lower_error : Q }.

(** Modelled from the spec: the Source class of module [data].  [mags] and
    [colors] are dicts keyed by band and colour name.  The membership dict is
    optional: [None] is a Source whose [RS_member] attribute is not there,
    [Some m] one whose dict [m] may still lack a colour. *)
Record Source : Type :=
  { ra : Q;
    dec : Q;
    mags : gmap string Data;
    colors : gmap string Data;
    near_center : bool;
    RS_member : option (gmap string bool) }.

(** Modelled from the spec: a Cluster is a name and its list of Sources. *)
Record Cluster : Type :=
  { name : string; sources_list : list Source }.

(** Modelled from the spec: the configuration dict of one colour, with its
    required keys ["color"], ["red_band"], ["blue_band"] and the 4-tuple
    ["plot_lims"] = (x-min, x-max, y-min, y-max). *)
Record Cfg : Type :=
  { color : string;
    red_band : string;
    blue_band : string;
    plot_lims : Q * Q * Q * Q }.

Definition lim0 (cfg : Cfg) : Q := let '(a, _, _, _) := plot_lims cfg in a.
Definition lim1 (cfg : Cfg) : Q := let '(_, b, _, _) := plot_lims cfg in b.
Definition lim2 (cfg : Cfg) : Q := let '(_, _, c, _) := plot_lims cfg in c.
Definition lim3 (cfg : Cfg) : Q := let '(_, _, _, d) := plot_lims cfg in d.

(** Modelled from the spec: a red sequence model of one redshift, with the
    method [rs_color] (magnitude to predicted colour) and the anchor point
    ([mag_point], [color_point]). *)
Record RSModel : Type :=
  { rs_color : Q -> Q; mag_point : Q; color_point : Q }.

(** [source.RS_member[key]]: the attribute access, then the subscript. *)
Definition rs_member_at (source : Source) (key : string) : outcome bool :=
  match RS_member source with
  | None => Raises (AttributeError "RS_member")
  | Some m => subscript m key
  end.

(** ** The matplotlib objects the module draws on

    Only what the module sets is recorded; purely cosmetic keyword arguments
    (line widths, marker sizes, z-order, text boxes) are left out. *)

Inductive colour : Type :=
| Named (spec : string)
(** [scalar_map.to_rgba(z)] for a map normalised to [vmin, vmax] *)
| ToRgba (vmin vmax z : Q).

Definition nice_red : string := "#D62728".

(** One [ax.errorbar] call; an error that is not passed is [None]. *)
Record Errorbar : Type :=
  { eb_x : Q; eb_y : Q; eb_xerr : option Q; eb_yerr : option Q;
    eb_c : colour }.

(** One [ax.plot] call. *)
Record Line : Type :=
  { ln_xs : list Q; ln_ys : list Q; ln_color : colour }.

(** One [ax.scatter] call. *)
Record Scatter : Type :=
  { sc_xs : list Q; sc_ys : list Q; sc_c : colour; sc_label : option string }.

(** One [ax.text] call, in axes coordinates. *)
Record Text : Type :=
  { tx_x : Q; tx_y : Q; tx_s : string; tx_ha : string; tx_va : string }.

Inductive side : Type := Bottom | Top | Left | Right.

Record Axis : Type :=
  { lim : option (Q * Q);
    label : option string;
    label_position : option side;
    ticks : option side;
    use_offset : bool;
    inverted : bool }.

Record Axes : Type :=
  { errorbars : list Errorbar;
    lines : list Line;
    scatters : list Scatter;
    texts : list Text;
    xaxis : Axis;
    yaxis : Axis;
    legend : bool;
    aspect : option R }.

Definition new_axis : Axis :=
  {| lim := None; label := None; label_position := None; ticks := None;
     use_offset := true; inverted := false |}.

Definition new_axes : Axes :=
  {| errorbars := []; lines := []; scatters := []; texts := [];
     xaxis := new_axis; yaxis := new_axis; legend := false; aspect := None |}.

(** [set_xlim(left, right)] and [set_ylim(bottom, top)]: the order of the
    two limits is the direction of the axis, which runs backwards exactly
    when the second limit is below the first. *)
Definition set_lim (v : Q * Q) (a : Axis) : Axis :=
  {| lim := Some v; label := label a; label_position := label_position a;
     ticks := ticks a; use_offset := use_offset a;
     inverted := Qltb (snd v) (fst v) |}.

Definition set_label (s : string) (a : Axis) : Axis :=
  {| lim := lim a; label := Some s; label_position := label_position a;
     ticks := ticks a; use_offset := use_offset a; inverted := inverted a |}.

Definition set_label_position (p : side) (a : Axis) : Axis :=
  {| lim := lim a; label := label a; label_position := Some p;
     ticks := ticks a; use_offset := use_offset a; inverted := inverted a |}.

Definition set_ticks (p : side) (a : Axis) : Axis :=
  {| lim := lim a; label := label a; label_position := label_position a;
     ticks := Some p; use_offset := use_offset a; inverted := inverted a |}.

Definition set_useOffset (b : bool) (a : Axis) : Axis :=
  {| lim := lim a; label := label a; label_position := label_position a;
     ticks := ticks a; use_offset := b; inverted := inverted a |}.

Definition invert (a : Axis) : Axis :=
  {| lim := lim a; label := label a; label_position := label_position a;
     ticks := ticks a; use_offset := use_offset a;
     inverted := negb (inverted a) |}.

Definition on_xaxis (f : Axis -> Axis) (ax : Axes) : Axes :=
  {| errorbars := errorbars ax; lines := lines ax; scatters := scatters ax;
     texts := texts ax; xaxis := f (xaxis ax); yaxis := yaxis ax;
     legend := legend ax; aspect := aspect ax |}.

Definition on_yaxis (f : Axis -> Axis) (ax : Axes) : Axes :=
  {| errorbars := errorbars ax; lines := lines ax; scatters := scatters ax;
     texts := texts ax; xaxis := xaxis ax; yaxis := f (yaxis ax);
     legend := legend ax; aspect := aspect ax |}.

Definition add_errorbar (e : Errorbar) (ax : Axes) : Axes :=
  {| errorbars := errorbars ax ++ [e]; lines := lines ax;
     scatters := scatters ax; texts := texts ax; xaxis := xaxis ax;
     yaxis := yaxis ax; legend := legend ax; aspect := aspect ax |}.

Definition add_line (l : Line) (ax : Axes) : Axes :=
  {| errorbars := errorbars ax; lines := lines ax ++ [l];
     scatters := scatters ax; texts := texts ax; xaxis := xaxis ax;
     yaxis := yaxis ax; legend := legend ax; aspect := aspect ax |}.

Definition add_scatter (s : Scatter) (ax : Axes) : Axes :=
  {| errorbars := errorbars ax; lines := lines ax;
     scatters := scatters ax ++ [s]; texts := texts ax; xaxis := xaxis ax;
     yaxis := yaxis ax; legend := legend ax; aspect := aspect ax |}.

Definition add_text (t : Text) (ax : Axes) : Axes :=
  {| errorbars := errorbars ax; lines := lines ax; scatters := scatters ax;
     texts := texts ax ++ [t]; xaxis := xaxis ax; yaxis := yaxis ax;
     legend := legend ax; aspect := aspect ax |}.

Definition show_legend (ax : Axes) : Axes :=
  {| errorbars := errorbars ax; lines := lines ax; scatters := scatters ax;
     texts := texts ax; xaxis := xaxis ax; yaxis := yaxis ax;
     legend := true; aspect := aspect ax |}.

Definition set_aspect (r : R) (ax : Axes) : Axes :=
  {| errorbars := errorbars ax; lines := lines ax; scatters := scatters ax;
     texts := texts ax; xaxis := xaxis ax; yaxis := yaxis ax;
     legend := legend ax; aspect := Some r |}.

(** ** [cmd]: the colour-magnitude diagram *)

(** The condition of the list comprehension that selects [valid_sources]:
    [and] does not look the colour up for a source away from the centre. *)
Definition is_valid (cfg : Cfg) (source : Source) : outcome bool :=
  if near_center source
  then c ← subscript (colors source) (color cfg);
       mret (Qltb (error c) 0.2)
  else mret false.

Definition valid_sources (cluster : Cluster) (cfg : Cfg)
  : outcome (list Source) :=
  comprehension_if (is_valid cfg) (sources_list cluster).

(** The [try] block: only [KeyError] is caught. *)
Definition point_color (cfg : Cfg) (source : Source) : outcome string :=
  match rs_member_at source (color cfg) with
  | Returns true => Returns nice_red
  | Returns false => Returns "k"
  | Raises (KeyError _) => Returns "k"
  | Raises e => Raises e
  end.

(** The body of the plotting loop. *)
Definition plot_source (cfg : Cfg) (source : Source) : Py Axes unit :=
  m ← lift (subscript (mags source) (red_band cfg));
  let mag := value m in
  source_color ← lift (subscript (colors source) (color cfg));
  c ← lift (point_color cfg source);
  modify (add_errorbar {| eb_x := mag; eb_y := value source_color;
                          eb_xerr := None;
                          eb_yerr := Some (error source_color);
                          eb_c := Named c |}).

Definition cmd (cluster : Cluster) (cfg : Cfg) : Py Axes unit :=
  valid ← lift (valid_sources cluster cfg);
  for_each valid (plot_source cfg);;
  modify (on_xaxis (set_lim (lim0 cfg, lim1 cfg)));;
  modify (on_yaxis (set_lim (lim2 cfg, lim3 cfg)));;
  modify (on_xaxis (set_label
            (replace "sloan_" EmptyString (red_band cfg) +:+ "  [AB]")));;
  modify (on_yaxis (set_label
            (replace "sloan_" EmptyString (color cfg) +:+ "  [AB]")));;
  modify (add_text {| tx_x := 0.03; tx_y := 0.97;
                      tx_s := replace "_" " " (name cluster);
                      tx_ha := "left"; tx_va := "top" |}).

(** ** [add_vega_labels]: a second pair of axes in Vega magnitudes *)

(** [ax.twinx()]: a new axes sharing the x axis, its own y axis on the right;
    matplotlib moves the y ticks of [ax] to the left. *)
Definition twinx : Py Axes Axes := fun ax =>
  (Returns {| errorbars := []; lines := []; scatters := []; texts := [];
              xaxis := xaxis ax;
              yaxis := set_label_position Right (set_ticks Right new_axis);
              legend := false; aspect := None |},
   on_yaxis (set_ticks Left) ax).

(** [ax.twiny()]: the same with the roles of x and y exchanged. *)
Definition twiny : Py Axes Axes := fun ax =>
  (Returns {| errorbars := []; lines := []; scatters := []; texts := [];
              xaxis := set_label_position Top (set_ticks Top new_axis);
              yaxis := yaxis ax;
              legend := false; aspect := None |},
   on_xaxis (set_ticks Bottom) ax).

Section Vega.

(** The table [config.ab_to_vega]: Vega_mag = AB_mag + offset, per band.
    Its contents are in module [config]. *)
Variable ab_to_vega : gmap string Q.

Definition add_vega_labels (cfg : Cfg) : Py Axes (Axes * Axes) :=
  modify (on_xaxis (set_ticks Bottom));;
  modify (on_yaxis (set_ticks Left));;
  blue ← lift (subscript ab_to_vega (blue_band cfg));
  let x_min := (lim0 cfg + blue)%Q in
  red ← lift (subscript ab_to_vega (red_band cfg));
  let x_max := (lim1 cfg + red)%Q in
  let y_min := (lim2 cfg + (blue - red))%Q in
  let y_max := (lim3 cfg + (blue - red))%Q in
  vega_color_ax ← twinx;
  vega_mag_ax ← twiny;
  let vega_mag_ax := on_xaxis (set_lim (x_min, x_max)) vega_mag_ax in
  let vega_color_ax := on_yaxis (set_lim (y_min, y_max)) vega_color_ax in
  let x_label := replace "sloan_" EmptyString (red_band cfg) +:+ "  [Vega]" in
  let vega_mag_ax := on_xaxis (set_label x_label) vega_mag_ax in
  let vega_mag_ax := on_xaxis (set_label_position Top) vega_mag_ax in
  let vega_mag_ax := on_xaxis (set_ticks Top) vega_mag_ax in
  let y_label := blue_band cfg +:+ " - " +:+ red_band cfg +:+ "  [Vega]" in
  let y_label := replace "sloan_" EmptyString y_label in
  let vega_color_ax := on_yaxis (set_label y_label) vega_color_ax in
  let vega_color_ax := on_yaxis (set_label_position Right) vega_color_ax in
  let vega_color_ax := on_yaxis (set_ticks Right) vega_color_ax in
  mret (vega_color_ax, vega_mag_ax).

End Vega.

(** ** [add_one_model] and [add_all_models]: the red sequence models *)

Definition add_one_model (rs_model : RSModel) (color : colour) : Py Axes unit :=
  let mags := [10; 30]%Q in
  let colors := map (rs_color rs_model) mags in
  modify (add_line {| ln_xs := mags; ln_ys := colors; ln_color := color |});;
  modify (add_scatter {| sc_xs := [mag_point rs_model];
                         sc_ys := [color_point rs_model];
                         sc_c := color; sc_label := None |}).

(** The dict of one colour: redshift to model, in insertion order.  Keys are
    compared as numbers. *)
Definition ModelDict : Type := list (Q * RSModel).

Definition keys (d : ModelDict) : list Q := map fst d.

Fixpoint subscript_num (d : ModelDict) (z : Q) : outcome RSModel :=
  match d with
  | [] => Raises (KeyError (KNum z))
  | (k, m) :: d' => if Qeq_bool k z then Returns m else subscript_num d' z
  end.

(** [np.arange(start, stop, step)]: [ceil((stop - start) / step)] values. *)
Definition arange (start stop step : Q) : list Q :=
  map (fun i : nat => (start + inject_Z (Z.of_nat i) * step)%Q)
      (seq 0 (Z.to_nat (Qceiling ((stop - start) / step)))).

(** A colorbar of the figure: the range of the [Normalize] object behind
    its mappable as the colorbar shows it, the axes it takes room from,
    label and ticks. *)
Record Colorbar : Type :=
  { cb_vmin : Q; cb_vmax : Q; cb_ax : list Axes;
    cb_label : option string; cb_ticks : option (list Q) }.

Record Figure : Type := { colorbars : list Colorbar }.

Definition on_ax {A} (c : Py Axes A) : Py (Figure * Axes) A :=
  fun '(fig, ax) => let '(r, ax') := c ax in (r, (fig, ax')).

Definition on_fig {A} (c : Py Figure A) : Py (Figure * Axes) A :=
  fun '(fig, ax) => let '(r, fig') := c fig in (r, (fig', ax)).

(** The range below which matplotlib takes an interval for a point:
    [(1e6 / tiny) * np.finfo(float).tiny] with [tiny = 1e-15]. *)
Definition smallest_range : Q := 2.2250738585072014e-287.

(** An interval is singular when its ends are (almost) the same number. *)
Definition singular (vmin vmax : Q) : bool :=
  let maxabsvalue :=
    if Qltb (Qabs vmin) (Qabs vmax) then Qabs vmax else Qabs vmin in
  Qltb maxabsvalue smallest_range ||
  Qle_bool (vmax - vmin) (maxabsvalue * 1e-15).

(** [matplotlib.transforms.nonsingular(vmin, vmax, expander)]: a singular
    interval is widened, by [expander] around zero, else by the fraction
    [expander] of each end. *)
Definition nonsingular (vmin vmax expander : Q) : Q * Q :=
  let '(vmin, vmax) :=
    if Qltb vmax vmin then (vmax, vmin) else (vmin, vmax) in
  let maxabsvalue :=
    if Qltb (Qabs vmin) (Qabs vmax) then Qabs vmax else Qabs vmin in
  if Qltb maxabsvalue smallest_range then (- expander, expander)%Q
  else if Qle_bool (vmax - vmin) (maxabsvalue * 1e-15) then
    if Qeq_bool vmax 0 && Qeq_bool vmin 0 then (- expander, expander)%Q
    else (vmin - expander * Qabs vmin, vmax + expander * Qabs vmax)%Q
  else (vmin, vmax).

(** [cb = fig.colorbar(mappable, ax=steal_axs, ...)] followed by
    [cb.set_label] and [cb.set_ticks].  matplotlib takes the figure from
    the first of the axes given, so an empty list is an [IndexError]; and
    it makes the range of the norm non-singular, in place, when it builds
    the colorbar. *)
Definition fig_colorbar (vmin vmax : Q) (steal_axs : list Axes)
    (label : string) (ticks : list Q) : Py Figure unit :=
  match steal_axs with
  | [] => lift (Raises (IndexError "list index out of range"))
  | _ :: _ =>
      modify (fun fig =>
        {| colorbars := colorbars fig ++
             [ {| cb_vmin := fst (nonsingular vmin vmax 0.1);
                  cb_vmax := snd (nonsingular vmin vmax 0.1);
                  cb_ax := steal_axs;
                  cb_label := Some label;
                  cb_ticks := Some ticks |} ] |})
  end.

Definition add_all_models (steal_axs : list Axes) (cfg : Cfg)
    (models : gmap string ModelDict) : Py (Figure * Axes) unit :=
  models ← lift (subscript models (color cfg));
  vmin ← lift (py_min (keys models));
  vmax ← lift (py_max (keys models));
  for_each (keys models) (fun z =>
    let color_val := ToRgba vmin vmax z in
    rs_model ← lift (subscript_num models z);
    on_ax (add_one_model rs_model color_val));;
  on_fig (fig_colorbar vmin vmax steal_axs "Redshift" (arange 0 3 0.1)).

(** ** [add_redshift]: the redshift label *)

(** The result of [round(x, 2)] on a float: the float nearest to a signed
    number of hundredths.  The sign is kept apart, as a float keeps it when
    the magnitude rounds to zero. *)
Record Rounded : Type := { negative : bool; hundredths : Z }.

(** Nearest integer, ties to the even one. *)
Definition round_half_even (x : Q) : Z :=
  let n := Qnum x in
  let d := Z.pos (Qden x) in
  let q := (n / d)%Z in
  match (2 * (n mod d) ?= d)%Z with
  | Lt => q
  | Gt => (q + 1)%Z
  | Eq => if Z.even q then q else (q + 1)%Z
  end.

Definition round2 (x : Q) : Rounded :=
  {| negative := Qltb x 0;
     hundredths := Z.abs (round_half_even (x * 100)) |}.

(** [str] of such a float: the shortest decimal that reads back, which has
    one or two decimals (positional notation, as [str] prints below 1e16). *)
Definition str (r : Rounded) : string :=
  let h := hundredths r in
  let frac := (h mod 100)%Z in
  (if negative r then "-" else EmptyString) +:+
  pretty (h / 100)%Z +:+ "." +:+
  (if (frac mod 10 =? 0)%Z then pretty (frac / 10)%Z
   else pretty (frac / 10)%Z +:+ pretty (frac mod 10)%Z).

(** The argument of [add_redshift]: a plain float or an [AsymmetricData]. *)
Inductive Redshift : Type :=
| Number (z : Q)
| WithErrors (d : AsymmetricData).

Definition redshift_text (redshift : Redshift) : string :=
  match redshift with
  | WithErrors d =>
      let value := "{" +:+ str (round2 (asym_value d)) +:+ "}" in
      let upper := "{+" +:+ str (round2 (upper_error d)) +:+ "}" in
      let lower := "{\,-" +:+ str (round2 (lower_error d)) +:+ "}" in
      "z=$\mathregular{" +:+ value +:+ "^" +:+ upper +:+ "_" +:+ lower +:+ "}$"
  | Number z => "z=" +:+ str (round2 z)
  end.

Definition add_redshift (redshift : Redshift) : Py Axes unit :=
  let text := redshift_text redshift in
  modify (add_text {| tx_x := 0.97; tx_y := 0.97; tx_s := text;
                      tx_ha := "right"; tx_va := "top" |}).

(** ** [add_flags]: the flags label *)

Definition add_flags (flags : Z) : Py Axes unit :=
  let text := "flags: " +:+ pretty flags in
  modify (add_text {| tx_x := 0.03; tx_y := 0.03; tx_s := text;
                      tx_ha := "left"; tx_va := "bottom" |}).

(** ** [location]: the map of the sources on the sky *)

(** The six lists the loop fills. *)
Record Lists : Type :=
  { rs_member_ra : list Q; rs_member_dec : list Q;
    center_ra : list Q; center_dec : list Q;
    rest_ra : list Q; rest_dec : list Q }.

Definition no_lists : Lists :=
  {| rs_member_ra := []; rs_member_dec := []; center_ra := [];
     center_dec := []; rest_ra := []; rest_dec := [] |}.

(** The body of the loop: the membership flag is read first, outside any
    [try]. *)
Definition sort_source (color : string) (source : Source) (l : Lists)
  : outcome Lists :=
  member ← rs_member_at source color;
  if member : bool then
    mret {| rs_member_ra := rs_member_ra l ++ [ra source];
            rs_member_dec := rs_member_dec l ++ [dec source];
            center_ra := center_ra l; center_dec := center_dec l;
            rest_ra := rest_ra l; rest_dec := rest_dec l |}
  else if near_center source then
    mret {| rs_member_ra := rs_member_ra l; rs_member_dec := rs_member_dec l;
            center_ra := center_ra l ++ [ra source];
            center_dec := center_dec l ++ [dec source];
            rest_ra := rest_ra l; rest_dec := rest_dec l |}
  else
    mret {| rs_member_ra := rs_member_ra l; rs_member_dec := rs_member_dec l;
            center_ra := center_ra l; center_dec := center_dec l;
            rest_ra := rest_ra l ++ [ra source];
            rest_dec := rest_dec l ++ [dec source] |}.

Fixpoint sort_sources (color : string) (sources : list Source) (l : Lists)
  : outcome Lists :=
  match sources with
  | [] => Returns l
  | source :: rest => l' ← sort_source color source l;
                      sort_sources color rest l'
  end.

(** [1.0 / np.cos(abs(middle_dec * np.pi / 180.0))] *)
Definition aspect_ratio (middle_dec : Q) : R :=
  (1 / cos (Rabs (Q2R middle_dec * PI / 180)))%R.

Definition location (cluster : Cluster) (color : string) : Py Axes unit :=
  l ← lift (sort_sources color (sources_list cluster) no_lists);
  modify (add_scatter {| sc_xs := rest_ra l; sc_ys := rest_dec l;
                         sc_c := Named "0.8"; sc_label := None |});;
  modify (add_scatter {| sc_xs := center_ra l; sc_ys := center_dec l;
                         sc_c := Named "0.2";
                         sc_label := Some "Location Cut" |});;
  let newline := String (Ascii.ascii_of_nat 10) EmptyString in
  let rs_label := "Red Sequence" +:+ newline +:+
                  replace "sloan_" EmptyString color +:+ " Selected" in
  modify (add_scatter {| sc_xs := rs_member_ra l; sc_ys := rs_member_dec l;
                         sc_c := Named "#D62728";
                         sc_label := Some rs_label |});;
  modify (on_xaxis (set_label "Right Ascension"));;
  modify (on_yaxis (set_label "Declination"));;
  modify show_legend;;
  modify (on_xaxis (set_useOffset false));;
  modify (on_yaxis (set_useOffset false));;
  modify (add_text {| tx_x := 0.02; tx_y := 0.96;
                      tx_s := replace "_" " " (name cluster);
                      tx_ha := "left"; tx_va := "center" |});;
  modify (on_xaxis invert);;
  let all_decs := (rs_member_dec l ++ center_dec l ++ rest_dec l) in
  lo ← lift (py_min all_decs);
  hi ← lift (py_max all_decs);
  let middle_dec := ((lo + hi) / 2)%Q in
  modify (set_aspect (aspect_ratio middle_dec)).

(** * Vocabulary of the statements, and example data *)

(** A source carries what [cmd] reads for this configuration: the active
    colour, the red band magnitude and a membership dict (maybe empty). *)
Definition carries (cfg : Cfg) (s : Source) : Prop :=
  is_Some (colors s !! color cfg) /\
  is_Some (mags s !! red_band cfg) /\
  is_Some (RS_member s).

(** The selection cut of [cmd], as a total function. *)
Definition selected (cfg : Cfg) (s : Source) : bool :=
  near_center s &&
  match colors s !! color cfg with
  | Some c => Qltb (error c) 0.2
  | None => false
  end.

(** [e] is the error bar that [cmd] draws for [s]. *)
Definition depicts (cfg : Cfg) (s : Source) (e : Errorbar) : Prop :=
  exists m c col,
    mags s !! red_band cfg = Some m /\
    colors s !! color cfg = Some c /\
    point_color cfg s = Returns col /\
    e = {| eb_x := value m; eb_y := value c; eb_xerr := None;
           eb_yerr := Some (error c); eb_c := Named col |}.

Definition draw_all (bars : list Errorbar) (ax : Axes) : Axes :=
  fold_left (fun a e => add_errorbar e a) bars ax.

(** The decoration that [cmd] puts on the axes after the points. *)
Definition decorate (cluster : Cluster) (cfg : Cfg) (ax : Axes) : Axes :=
  add_text {| tx_x := 0.03; tx_y := 0.97;
              tx_s := replace "_" " " (name cluster);
              tx_ha := "left"; tx_va := "top" |}
    (on_yaxis (set_label
                 (replace "sloan_" EmptyString (color cfg) +:+ "  [AB]"))
       (on_xaxis (set_label
                    (replace "sloan_" EmptyString (red_band cfg) +:+ "  [AB]"))
          (on_yaxis (set_lim (lim2 cfg, lim3 cfg))
             (on_xaxis (set_lim (lim0 cfg, lim1 cfg)) ax)))).

(** Sources used in the examples below: colour "r-z", red band "z". *)
Definition example_cfg : Cfg :=
  {| color := "r-z"; red_band := "z"; blue_band := "r";
     plot_lims := (18, 25, 0, 2)%Q |}.

Definition example_source (dec : Q) (near : bool) (err : Q)
    (member : option (gmap string bool)) : Source :=
  {| ra := 150; dec := dec;
     mags := {[ "r" := {| value := 21.5; error := 0.02 |};
                "z" := {| value := 20.25; error := 0.03 |} ]};
     colors := {[ "r-z" := {| value := 1.25; error := err |} ]};
     near_center := near;
     RS_member := member |}.

Definition example_cluster : Cluster :=
  {| name := "test_cluster";
     sources_list :=
       [ example_source (-10) true 0.05 (Some {[ "r-z" := true ]});
         example_source 10 false 0.05 (Some {[ "r-z" := true ]});
         example_source 2 true 0.2 (Some {[ "r-z" := false ]});
         example_source 3 true 0.1 (Some ∅) ] |}.

(** A source near the centre, with a good colour, whose membership dict is
    there but has no entry yet. *)
Definition unset_source : Source := example_source 3 true 0.1 (Some ∅).

Definition unset_cluster : Cluster :=
  {| name := "unset"; sources_list := [unset_source] |}.

Definition example_ab_to_vega : gmap string Q :=
  {[ "r" := (-0.16)%Q; "z" := (-0.54)%Q ]}.

(** The invariant of a dict: no two keys are equal as numbers. *)
Fixpoint distinct_keys (d : ModelDict) : Prop :=
  match d with
  | [] => True
  | (k, _) :: d' => Forall (fun e => ~ (fst e == k)%Q) d' /\ distinct_keys d'
  end.

(** The line and the marker of one model. *)
Definition model_line (vmin vmax : Q) (zm : Q * RSModel) : Line :=
  {| ln_xs := [10; 30]%Q;
     ln_ys := [rs_color (snd zm) 10; rs_color (snd zm) 30]%Q;
     ln_color := ToRgba vmin vmax (fst zm) |}.

Definition model_marker (vmin vmax : Q) (zm : Q * RSModel) : Scatter :=
  {| sc_xs := [mag_point (snd zm)]; sc_ys := [color_point (snd zm)];
     sc_c := ToRgba vmin vmax (fst zm); sc_label := None |}.

Definition draw_models (vmin vmax : Q) (d : ModelDict) (ax : Axes) : Axes :=
  fold_left (fun a zm => add_scatter (model_marker vmin vmax zm)
                           (add_line (model_line vmin vmax zm) a)) d ax.

(** The colorbar that [add_all_models] attaches. *)
Definition redshift_colorbar (vmin vmax : Q) (steal_axs : list Axes)
  : Colorbar :=
  {| cb_vmin := fst (nonsingular vmin vmax 0.1);
     cb_vmax := snd (nonsingular vmin vmax 0.1);
     cb_ax := steal_axs;
     cb_label := Some "Redshift"; cb_ticks := Some (arange 0 3 0.1) |}.

(** Three models, at redshifts 0.5, 0.1 and 0.9, in this order. *)
Definition example_model_dict : ModelDict :=
  [ (0.5%Q, {| rs_color := fun mag => (1.2 - 0.02 * (mag - 20))%Q;
               mag_point := 20.5; color_point := 1.19 |});
    (0.1%Q, {| rs_color := fun mag => (0.6 - 0.01 * (mag - 18))%Q;
               mag_point := 17; color_point := 0.61 |});
    (0.9%Q, {| rs_color := fun mag => (1.8 - 0.03 * (mag - 22))%Q;
               mag_point := 22; color_point := 1.8 |}) ].

Definition example_models : gmap string ModelDict :=
  {[ "r-z" := example_model_dict ]}.

(** One model only, at redshift 0.5. *)
Definition single_model_dict : ModelDict :=
  [ (0.5%Q, {| rs_color := fun mag => (1.2 - 0.02 * (mag - 20))%Q;
               mag_point := 20.5; color_point := 1.19 |}) ].

Definition single_models : gmap string ModelDict :=
  {[ "r-z" := single_model_dict ]}.

(** [all_decs] of [location]. *)
Definition all_decs (l : Lists) : list Q :=
  rs_member_dec l ++ center_dec l ++ rest_dec l.

(** Every source has its flag for this colour. *)
Definition flag_set (color : string) (s : Source) : Prop :=
  exists b, rs_member_at s color = Returns b.

(** Two sources at declinations -10 and 10; the second is a member away
    from the centre. *)
Definition pair_cluster : Cluster :=
  {| name := "pair";
     sources_list :=
       [ example_source (-10) true 0.05 (Some {[ "r-z" := false ]});
         example_source 10 false 0.05 (Some {[ "r-z" := true ]}) ] |}.

Definition no_colour_cluster : Cluster :=
  {| name := "no_colour";
     sources_list :=
       [ example_source 1 true 0.05 (Some ∅);
         {| ra := 150; dec := 2; mags := ∅; colors := ∅;
            near_center := true; RS_member := Some ∅ |} ] |}.

Definition no_magnitude_cluster : Cluster :=
  {| name := "no_magnitude";
     sources_list :=
       [ example_source 1 true 0.05 (Some ∅);
         {| ra := 150; dec := 2; mags := ∅;
            colors := {[ "r-z" := {| value := 1; error := 0.01 |} ]};
            near_center := true; RS_member := Some ∅ |};
         example_source 3 true 0.05 (Some ∅) ] |}.

(** [old] does not occur in [s]. *)
Fixpoint no_occurrence (old s : string) : bool :=
  match s with
  | EmptyString => true
  | String _ s' => negb (String.prefix old s) && no_occurrence old s'
  end.

Definition sloan_cfg : Cfg :=
  {| color := "sloan_r-sloan_z"; red_band := "sloan_z";
     blue_band := "sloan_r"; plot_lims := (18, 25, 0, 2)%Q |}.

Definition sloan_cluster : Cluster :=
  {| name := "sloan_field";
     sources_list :=
       [ {| ra := 150; dec := 2;
            mags := {[ "sloan_z" := {| value := 20.25; error := 0.03 |} ]};
            colors := {[ "sloan_r-sloan_z" :=
                           {| value := 1.25; error := 0.05 |} ]};
            near_center := true; RS_member := Some ∅ |} ] |}.

(** The membership flag of a source, as [location] reads it when it is
    there. *)
Definition is_member (color : string) (s : Source) : bool :=
  match rs_member_at s color with
  | Returns true => true
  | _ => false
  end.

Definition in_centre (color : string) (s : Source) : bool :=
  negb (is_member color s) && near_center s.

Definition in_rest (color : string) (s : Source) : bool :=
  negb (is_member color s) && negb (near_center s).

(** The three layers of [location], for the sources [l]. *)
Definition sky_layers (color : string) (l : list Source) : list Scatter :=
  [ {| sc_xs := map ra (List.filter (in_rest color) l);
       sc_ys := map dec (List.filter (in_rest color) l);
       sc_c := Named "0.8"; sc_label := None |};
    {| sc_xs := map ra (List.filter (in_centre color) l);
       sc_ys := map dec (List.filter (in_centre color) l);
       sc_c := Named "0.2"; sc_label := Some "Location Cut" |};
    {| sc_xs := map ra (List.filter (is_member color) l);
       sc_ys := map dec (List.filter (is_member color) l);
       sc_c := Named "#D62728";
       sc_label := Some ("Red Sequence" +:+
                         String (Ascii.ascii_of_nat 10) EmptyString +:+
                         replace "sloan_" EmptyString color +:+
                         " Selected") |} ].

(** What [location] has done to the axes when it reaches the aspect. *)
Definition sky_decorate (cluster : Cluster) (layers : list Scatter)
    (ax : Axes) : Axes :=
  on_xaxis invert
    (add_text {| tx_x := 0.02; tx_y := 0.96;
                 tx_s := replace "_" " " (name cluster);
                 tx_ha := "left"; tx_va := "center" |}
       (on_yaxis (set_useOffset false)
          (on_xaxis (set_useOffset false)
             (show_legend
                (on_yaxis (set_label "Declination")
                   (on_xaxis (set_label "Right Ascension")
                      (fold_left (fun a s => add_scatter s a) layers
                                 ax))))))).

(** The pair of [pair_cluster] the other way round, with no members. *)
Definition reversed_pair_cluster : Cluster :=
  {| name := "reversed";
     sources_list :=
       [ example_source 10 true 0.3 (Some {[ "g-r" := false ]});
         example_source (-10) false 0.3 (Some {[ "g-r" := false ]}) ] |}.

(** Reading a decimal text back: the digits before and after the point as
    one number, and how many of them come after the point. *)
Definition digit_of (c : ascii) : option N :=
  let n := N_of_ascii c in
  if (48 <=? n)%N && (n <=? 57)%N then Some (n - 48)%N else None.

Fixpoint read_fraction (s : string) (acc : N) (count : nat)
  : option (N * nat) :=
  match s with
  | EmptyString => Some (acc, count)
  | String c s' =>
      match digit_of c with
      | Some d => read_fraction s' (acc * 10 + d)%N (S count)
      | None => None
      end
  end.

Fixpoint read_integer (s : string) (acc : N) : option (N * nat) :=
  match s with
  | EmptyString => None
  | String c s' =>
      if Ascii.eqb c "."%char then read_fraction s' acc 0
      else match digit_of c with
           | Some d => read_integer s' (acc * 10 + d)%N
           | None => None
           end
  end.

Definition read_decimal (s : string) : option (bool * (N * nat)) :=
  match s with
  | EmptyString => None
  | String c s' =>
      if Ascii.eqb c "-"%char then pair true <$> read_integer s' 0
      else pair false <$> read_integer s 0
  end.

(** The number that such a reading denotes. *)
Definition decimal_value (v : N * nat) : Q :=
  inject_Z (Z.of_N (fst v)) / inject_Z (10 ^ Z.of_nat (snd v)).

(** * Properties *)

(** ** Builtins *)

Lemma Qltb_lt (x y : Q) : Qltb x y = true <-> (x < y)%Q.
Proof. unfold Qltb, Qlt. apply Z.ltb_lt. Qed.

Lemma Qltb_ge (x y : Q) : Qltb x y = false <-> (y <= x)%Q.
Proof. unfold Qltb, Qle. apply Z.ltb_ge. Qed.

Lemma comprehension_if_filter {A} (p : A -> outcome bool) (f : A -> bool)
    (l : list A) :
  Forall (fun x => p x = Returns (f x)) l ->
  comprehension_if p l = Returns (List.filter f l).
Proof.
  induction 1 as [|x l Hx _ IH]; [reflexivity|].
  cbn [comprehension_if List.filter]. rewrite Hx, IH. cbn.
  destruct (f x); reflexivity.
Qed.

(** ** The colour-magnitude diagram *)

Lemma errorbars_draw_all (bars : list Errorbar) (ax : Axes) :
  errorbars (draw_all bars ax) = (errorbars ax ++ bars).
Proof.
  revert ax. induction bars as [|e bars IH]; intros ax; cbn.
  - now rewrite app_nil_r.
  - unfold draw_all in IH. rewrite IH. cbn. now rewrite <- app_assoc.
Qed.

Lemma is_valid_selected (cfg : Cfg) (s : Source) :
  is_Some (colors s !! color cfg) ->
  is_valid cfg s = Returns (selected cfg s).
Proof.
  intros [c Hc]. unfold is_valid, selected, subscript.
  rewrite Hc. destruct (near_center s); reflexivity.
Qed.

Lemma point_color_total (cfg : Cfg) (s : Source) :
  is_Some (RS_member s) ->
  exists col, point_color cfg s = Returns col /\ (col = nice_red \/ col = "k").
Proof.
  intros [m Hm]. unfold point_color, rs_member_at, subscript. rewrite Hm.
  destruct (m !! color cfg) as [[|]|]; eauto.
Qed.

Lemma plot_source_depicts (cfg : Cfg) (s : Source) :
  carries cfg s ->
  exists e, depicts cfg s e /\
            forall ax, plot_source cfg s ax = (Returns tt, add_errorbar e ax).
Proof.
  intros ([c Hc] & [m Hm] & Hrs).
  destruct (point_color_total cfg s Hrs) as (col & Hcol & _).
  eexists. split.
  - exists m, c, col. repeat split; eauto.
  - intros ax. unfold plot_source, mbind, Py_bind, lift, modify, subscript.
    rewrite Hm, Hc, Hcol. reflexivity.
Qed.

Lemma for_each_plot_source (cfg : Cfg) (l : list Source) :
  Forall (carries cfg) l ->
  exists bars, Forall2 (depicts cfg) l bars /\
    forall ax, for_each l (plot_source cfg) ax = (Returns tt, draw_all bars ax).
Proof.
  induction 1 as [|s l Hs _ (bars & Hbars & IH)].
  - exists []. split; [constructor | reflexivity].
  - destruct (plot_source_depicts cfg s Hs) as (e & He & Hplot).
    exists (e :: bars). split; [now constructor|].
    intros ax. cbn [for_each]. unfold mbind, Py_bind.
    rewrite Hplot. apply IH.
Qed.

Lemma cmd_returns (cluster : Cluster) (cfg : Cfg) :
  Forall (carries cfg) (sources_list cluster) ->
  valid_sources cluster cfg
    = Returns (List.filter (selected cfg) (sources_list cluster)) /\
  exists bars,
    Forall2 (depicts cfg)
            (List.filter (selected cfg) (sources_list cluster)) bars /\
    forall ax, cmd cluster cfg ax
               = (Returns tt, decorate cluster cfg (draw_all bars ax)).
Proof.
  intros Hall.
  assert (Hvalid : valid_sources cluster cfg
            = Returns (List.filter (selected cfg) (sources_list cluster))).
  { apply comprehension_if_filter.
    eapply Forall_impl; [exact Hall|].
    intros s (Hc & _). now apply is_valid_selected. }
  split; [exact Hvalid|].
  destruct (for_each_plot_source cfg
              (List.filter (selected cfg) (sources_list cluster)))
    as (bars & Hbars & Hloop).
  { apply List.Forall_forall. intros s Hs. apply filter_In in Hs as [Hs _].
    rewrite List.Forall_forall in Hall. now apply Hall. }
  exists bars. split; [exact Hbars|].
  intros ax. unfold cmd, mbind, Py_bind, lift. rewrite Hvalid, Hloop.
  reflexivity.
Qed.

Lemma example_cluster_carries :
  Forall (carries example_cfg) (sources_list example_cluster).
Proof.
  repeat constructor; cbn; eexists; vm_compute; reflexivity.
Qed.

(** C1.  [cmd] draws a source exactly when it is near the centre and the
    error of its active colour is strictly below 0.2: on a cluster whose
    sources carry what the configuration names, the sources selected for
    plotting are those of the cluster that pass both cuts, every source that
    is away from the centre or has a colour error of 0.2 or more is left
    out, [cmd] returns normally, it adds one error bar per selected source,
    in order, and selected and left-out sources add up to the whole list. *)
Theorem cmd_draws_iff_selected (cluster : Cluster) (cfg : Cfg) (ax : Axes) :
  Forall (carries cfg) (sources_list cluster) ->
  exists drawn bars,
    valid_sources cluster cfg = Returns drawn /\
    (forall s, In s drawn <->
       In s (sources_list cluster) /\ near_center s = true /\
       exists c, colors s !! color cfg = Some c /\ (error c < 0.2)%Q) /\
    (forall s, In s (sources_list cluster) ->
       near_center s = false \/
       (exists c, colors s !! color cfg = Some c /\ (0.2 <= error c)%Q) ->
       ~ In s drawn) /\
    fst (cmd cluster cfg ax) = Returns tt /\
    errorbars (snd (cmd cluster cfg ax)) = (errorbars ax ++ bars) /\
    Forall2 (depicts cfg) drawn bars /\
    (length drawn +
     length (List.filter (fun s => negb (selected cfg s)) (sources_list cluster))
     = length (sources_list cluster))%nat.
Proof.
  intros Hall.
  destruct (cmd_returns cluster cfg Hall) as (Hvalid & bars & Hbars & Hcmd).
  assert (Hiff : forall s,
    In s (List.filter (selected cfg) (sources_list cluster)) <->
    In s (sources_list cluster) /\ near_center s = true /\
    exists c, colors s !! color cfg = Some c /\ (error c < 0.2)%Q).
  { intros s. rewrite filter_In. unfold selected.
    rewrite andb_true_iff. split.
    - intros (Hin & Hnear & Hcut). repeat split; trivial.
      destruct (colors s !! color cfg) as [c|]; [|discriminate].
      exists c. split; [reflexivity | now apply Qltb_lt].
    - intros (Hin & Hnear & c & Hc & Hlt). repeat split; trivial.
      rewrite Hc. now apply Qltb_lt. }
  exists (List.filter (selected cfg) (sources_list cluster)), bars.
  split; [exact Hvalid|]. split; [exact Hiff|].
  split; [|split; [|split; [|split]]]; trivial.
  - intros s Hin Hout Hdrawn. apply Hiff in Hdrawn as (_ & Hnear & c & Hc & Hlt).
    destruct Hout as [Hfar | (c' & Hc' & Hge)]; [congruence|].
    rewrite Hc in Hc'. injection Hc' as <-.
    now apply Qle_not_lt in Hge.
  - now rewrite Hcmd.
  - rewrite Hcmd. cbn. now rewrite errorbars_draw_all.
  - apply filter_length.
Qed.

Lemma cmd_draws_iff_selected_witness :
  Forall (carries example_cfg) (sources_list example_cluster) /\
  exists drawn bars,
    valid_sources example_cluster example_cfg = Returns drawn /\
    (forall s, In s drawn <->
       In s (sources_list example_cluster) /\ near_center s = true /\
       exists c, colors s !! color example_cfg = Some c /\ (error c < 0.2)%Q) /\
    (forall s, In s (sources_list example_cluster) ->
       near_center s = false \/
       (exists c, colors s !! color example_cfg = Some c /\
                  (0.2 <= error c)%Q) ->
       ~ In s drawn) /\
    fst (cmd example_cluster example_cfg new_axes) = Returns tt /\
    errorbars (snd (cmd example_cluster example_cfg new_axes))
      = (errorbars new_axes ++ bars) /\
    Forall2 (depicts example_cfg) drawn bars /\
    (length drawn +
     length (List.filter (fun s => negb (selected example_cfg s))
                         (sources_list example_cluster))
     = length (sources_list example_cluster))%nat.
Proof.
  split.
  - repeat constructor; cbn; eexists; vm_compute; reflexivity.
  - apply (cmd_draws_iff_selected example_cluster example_cfg new_axes).
    repeat constructor; cbn; eexists; vm_compute; reflexivity.
Defined.

(** What [cmd] draws on the example cluster: the first and the last source;
    the second is away from the centre, the third has an error of 0.2. *)
Example cmd_example :
  errorbars (snd (cmd example_cluster example_cfg new_axes))
  = [ {| eb_x := 20.25; eb_y := 1.25; eb_xerr := None;
         eb_yerr := Some 0.05%Q; eb_c := Named "#D62728" |};
      {| eb_x := 20.25; eb_y := 1.25; eb_xerr := None;
         eb_yerr := Some 0.1%Q; eb_c := Named "k" |} ].
Proof. vm_compute. reflexivity. Qed.

(** C10.  Every point that [cmd] draws has as x-coordinate the value of the
    source's magnitude in the band the configuration calls ["red_band"], as
    y-coordinate the value of the active colour, a vertical error bar of the
    size of that colour's error and no horizontal error bar. *)
Theorem cmd_point_is_red_band_magnitude (cluster : Cluster) (cfg : Cfg)
    (ax : Axes) :
  Forall (carries cfg) (sources_list cluster) ->
  exists bars,
    fst (cmd cluster cfg ax) = Returns tt /\
    errorbars (snd (cmd cluster cfg ax)) = (errorbars ax ++ bars) /\
    Forall2 (fun s e =>
               exists m c,
                 mags s !! red_band cfg = Some m /\
                 colors s !! color cfg = Some c /\
                 eb_x e = value m /\ eb_y e = value c /\
                 eb_yerr e = Some (error c) /\ eb_xerr e = None)
            (List.filter (selected cfg) (sources_list cluster)) bars.
Proof.
  intros Hall.
  destruct (cmd_returns cluster cfg Hall) as (_ & bars & Hbars & Hcmd).
  exists bars. rewrite Hcmd. cbn. rewrite errorbars_draw_all.
  repeat split.
  eapply Forall2_impl; [exact Hbars|].
  intros s e (m & c & col & Hm & Hc & _ & ->). exists m, c. now cbn.
Qed.

Lemma cmd_point_is_red_band_magnitude_witness :
  exists bars,
    fst (cmd example_cluster example_cfg new_axes) = Returns tt /\
    errorbars (snd (cmd example_cluster example_cfg new_axes))
      = (errorbars new_axes ++ bars) /\
    Forall2 (fun s e =>
               exists m c,
                 mags s !! red_band example_cfg = Some m /\
                 colors s !! color example_cfg = Some c /\
                 eb_x e = value m /\ eb_y e = value c /\
                 eb_yerr e = Some (error c) /\ eb_xerr e = None)
            (List.filter (selected example_cfg) (sources_list example_cluster))
            bars.
Proof.
  apply (cmd_point_is_red_band_magnitude example_cluster example_cfg new_axes).
  repeat constructor; cbn; eexists; vm_compute; reflexivity.
Defined.

(** ** Membership that has not been set *)

(** In [cmd] a membership dict without the active colour gives a black
    point: the [KeyError] is caught. *)
Lemma point_color_missing_key (cfg : Cfg) (s : Source) (m : gmap string bool) :
  RS_member s = Some m -> m !! color cfg = None ->
  point_color cfg s = Returns "k".
Proof.
  intros Hm Hk. unfold point_color, rs_member_at, subscript.
  now rewrite Hm, Hk.
Qed.

(** An [AttributeError] is not a [KeyError]: it leaves the [try] block. *)
Lemma point_color_no_attribute (cfg : Cfg) (s : Source) :
  RS_member s = None ->
  point_color cfg s = Raises (AttributeError "RS_member").
Proof. intros Hm. unfold point_color, rs_member_at. now rewrite Hm. Qed.

(** With the flag set, [location] files the source in one list: membership
    is looked at first, the location cut only for the others. *)
Lemma sort_source_set (color : string) (s : Source) (l : Lists) (b : bool) :
  rs_member_at s color = Returns b ->
  exists l', sort_source color s l = Returns l' /\
    if b then
      rs_member_dec l' = (rs_member_dec l ++ [dec s]) /\
      center_dec l' = center_dec l /\ rest_dec l' = rest_dec l
    else if near_center s then
      rs_member_dec l' = rs_member_dec l /\
      center_dec l' = (center_dec l ++ [dec s]) /\
      rest_dec l' = rest_dec l
    else
      rs_member_dec l' = rs_member_dec l /\
      center_dec l' = center_dec l /\
      rest_dec l' = (rest_dec l ++ [dec s]).
Proof.
  intros Hb. unfold sort_source. rewrite Hb. cbn.
  destruct b; [|destruct (near_center s)]; eexists; (split; [reflexivity|]);
    cbn; auto.
Qed.

Lemma sort_sources_raises (color : string) (sources : list Source) (s : Source)
    (e : exn) (l : Lists) :
  In s sources -> rs_member_at s color = Raises e ->
  exists e', sort_sources color sources l = Raises e'.
Proof.
  intros Hin He. revert l.
  induction sources as [|s0 sources IH]; intros l; [contradiction|].
  cbn [sort_sources]. unfold sort_source at 1.
  destruct (rs_member_at s0 color) as [b|e0] eqn:H0.
  - destruct Hin as [->|Hin]; [congruence|].
    cbn. destruct b; [|destruct (near_center s0)]; cbn; now apply IH.
  - cbn. eauto.
Qed.

(** C2.  What the two renderers do with a source whose membership dict lacks
    the active colour: [cmd] returns normally and draws it as a black point,
    [location] raises the [KeyError] of the lookup and draws nothing. *)
Theorem location_raises_on_unset_membership :
  fst (cmd unset_cluster example_cfg new_axes) = Returns tt /\
  errorbars (snd (cmd unset_cluster example_cfg new_axes))
    = [ {| eb_x := 20.25; eb_y := 1.25; eb_xerr := None;
           eb_yerr := Some 0.1%Q; eb_c := Named "k" |} ] /\
  location unset_cluster "r-z" new_axes
    = (Raises (KeyError (KStr "r-z")), new_axes).
Proof. vm_compute. repeat split; reflexivity. Qed.

(** C3.  [location] has no list for a source whose membership dict lacks the
    colour: sorting it raises [KeyError], whatever the lists hold, and so
    does [location] on every cluster that contains such a source. *)
Theorem sort_source_unset_membership_raises (color : string) (s : Source)
    (m : gmap string bool) :
  RS_member s = Some m -> m !! color = None ->
  (forall l, sort_source color s l = Raises (KeyError (KStr color))) /\
  (forall cluster ax, In s (sources_list cluster) ->
     exists e, location cluster color ax = (Raises e, ax)).
Proof.
  intros Hm Hk.
  assert (Hs : rs_member_at s color = Raises (KeyError (KStr color))).
  { unfold rs_member_at, subscript. now rewrite Hm, Hk. }
  split.
  - intros l. unfold sort_source. now rewrite Hs.
  - intros cluster ax Hin.
    destruct (sort_sources_raises color _ s _ no_lists Hin Hs) as [e He].
    exists e. unfold location, mbind, Py_bind, lift. now rewrite He.
Qed.

Lemma sort_source_unset_membership_raises_witness :
  (forall l, sort_source "r-z" unset_source l
             = Raises (KeyError (KStr "r-z"))) /\
  (forall cluster ax, In unset_source (sources_list cluster) ->
     exists e, location cluster "r-z" ax = (Raises e, ax)).
Proof.
  apply (sort_source_unset_membership_raises "r-z" unset_source ∅);
    reflexivity.
Defined.

(** With the flag set for every source, the classification of [cmd] is a
    three-way split: left out, drawn red, or drawn black. *)
Lemma cmd_three_way (cfg : Cfg) (s : Source) :
  carries cfg s ->
  (selected cfg s = false /\ is_valid cfg s = Returns false) \/
  (selected cfg s = true /\ point_color cfg s = Returns nice_red) \/
  (selected cfg s = true /\ point_color cfg s = Returns "k").
Proof.
  intros (Hc & _ & Hrs).
  destruct (point_color_total cfg s Hrs) as (col & Hcol & [-> | ->]);
    rewrite (is_valid_selected cfg s Hc), Hcol;
    destruct (selected cfg s); auto.
Qed.

(** A member away from the centre goes to the red list. *)
Example member_away_from_centre_is_red :
  sort_source "r-z" (example_source 10 false 0.05 (Some {[ "r-z" := true ]}))
              no_lists
  = Returns {| rs_member_ra := [150%Q]; rs_member_dec := [10%Q];
               center_ra := []; center_dec := [];
               rest_ra := []; rest_dec := [] |}.
Proof. vm_compute. reflexivity. Qed.

(** ** The Vega axes *)

(** C4.  [add_vega_labels] gives the new magnitude axis the x-range
    (x-min + blue offset, x-max + red offset) and the new colour axis the
    y-range obtained by adding (blue offset - red offset) to both y limits;
    the data drawn on the primary axes and the limits of the primary axes
    stay as they were. *)
Theorem add_vega_labels_limits (ab_to_vega : gmap string Q) (cfg : Cfg)
    (ax : Axes) (blue red : Q) :
  ab_to_vega !! blue_band cfg = Some blue ->
  ab_to_vega !! red_band cfg = Some red ->
  exists vega_color_ax vega_mag_ax ax',
    add_vega_labels ab_to_vega cfg ax
      = (Returns (vega_color_ax, vega_mag_ax), ax') /\
    lim (xaxis vega_mag_ax) = Some (lim0 cfg + blue, lim1 cfg + red)%Q /\
    lim (yaxis vega_color_ax)
      = Some (lim2 cfg + (blue - red), lim3 cfg + (blue - red))%Q /\
    errorbars ax' = errorbars ax /\ lines ax' = lines ax /\
    scatters ax' = scatters ax /\ texts ax' = texts ax /\
    lim (xaxis ax') = lim (xaxis ax) /\ lim (yaxis ax') = lim (yaxis ax) /\
    (* the twins show the primary limits on the axis they share *)
    lim (xaxis vega_color_ax) = lim (xaxis ax) /\
    lim (yaxis vega_mag_ax) = lim (yaxis ax) /\
    errorbars vega_color_ax = [] /\ errorbars vega_mag_ax = [].
Proof.
  intros Hblue Hred.
  unfold add_vega_labels, mbind, Py_bind, lift, modify, subscript, twinx, twiny.
  rewrite Hblue, Hred. cbn.
  do 3 eexists. split; [reflexivity|]. cbn. repeat split.
Qed.

Lemma add_vega_labels_limits_witness :
  exists vega_color_ax vega_mag_ax ax',
    add_vega_labels example_ab_to_vega example_cfg new_axes
      = (Returns (vega_color_ax, vega_mag_ax), ax') /\
    lim (xaxis vega_mag_ax)
      = Some (lim0 example_cfg + -0.16, lim1 example_cfg + -0.54)%Q /\
    lim (yaxis vega_color_ax)
      = Some (lim2 example_cfg + (-0.16 - -0.54),
              lim3 example_cfg + (-0.16 - -0.54))%Q /\
    errorbars ax' = errorbars new_axes /\ lines ax' = lines new_axes /\
    scatters ax' = scatters new_axes /\ texts ax' = texts new_axes /\
    lim (xaxis ax') = lim (xaxis new_axes) /\
    lim (yaxis ax') = lim (yaxis new_axes) /\
    lim (xaxis vega_color_ax) = lim (xaxis new_axes) /\
    lim (yaxis vega_mag_ax) = lim (yaxis new_axes) /\
    errorbars vega_color_ax = [] /\ errorbars vega_mag_ax = [].
Proof.
  apply (add_vega_labels_limits example_ab_to_vega example_cfg new_axes);
    reflexivity.
Defined.

(** A band without an offset in the table is a [KeyError]. *)
Lemma add_vega_labels_unknown_band (ab_to_vega : gmap string Q) (cfg : Cfg)
    (ax : Axes) :
  ab_to_vega !! blue_band cfg = None ->
  fst (add_vega_labels ab_to_vega cfg ax)
  = Raises (KeyError (KStr (blue_band cfg))).
Proof.
  intros Hblue.
  unfold add_vega_labels, mbind, Py_bind, lift, modify, subscript.
  now rewrite Hblue.
Qed.

(** On the example: AB limits (18, 25, 0, 2), offsets -0.16 for the blue
    band r and -0.54 for the red band z. *)
Example add_vega_labels_example :
  let '(r, _) := add_vega_labels example_ab_to_vega example_cfg new_axes in
  match r with
  | Returns (vega_color_ax, vega_mag_ax) =>
      lim (xaxis vega_mag_ax) = Some (18 + -0.16, 25 + -0.54)%Q /\
      lim (yaxis vega_color_ax)
        = Some (0 + (-0.16 - -0.54), 2 + (-0.16 - -0.54))%Q
  | Raises _ => False
  end.
Proof. vm_compute. split; reflexivity. Qed.

(** ** The model overlay *)

Lemma fold_min_spec (l : list Q) (x : Q) :
  let m := fold_left (fun m y => if Qltb y m then y else m) l x in
  (m = x \/ In m l) /\ (m <= x)%Q /\ Forall (fun y => (m <= y)%Q) l.
Proof.
  revert x. induction l as [|y l IH]; intros x; cbn.
  - repeat split; [now left | apply Qle_refl | constructor].
  - specialize (IH (if Qltb y x then y else x)).
    cbn in IH. destruct IH as (Hin & Hle & Hall).
    destruct (Qltb y x) eqn:Hyx.
    + apply Qltb_lt in Hyx. repeat split.
      * right. destruct Hin as [-> | Hin]; [now left | now right].
      * eapply Qle_trans; [exact Hle | now apply Qlt_le_weak].
      * now constructor.
    + apply Qltb_ge in Hyx. repeat split.
      * destruct Hin as [-> | Hin]; [now left | right; now right].
      * exact Hle.
      * constructor; [eapply Qle_trans; eassumption | exact Hall].
Qed.

Lemma fold_max_spec (l : list Q) (x : Q) :
  let m := fold_left (fun m y => if Qltb m y then y else m) l x in
  (m = x \/ In m l) /\ (x <= m)%Q /\ Forall (fun y => (y <= m)%Q) l.
Proof.
  revert x. induction l as [|y l IH]; intros x; cbn.
  - repeat split; [now left | apply Qle_refl | constructor].
  - specialize (IH (if Qltb x y then y else x)).
    cbn in IH. destruct IH as (Hin & Hle & Hall).
    destruct (Qltb x y) eqn:Hxy.
    + apply Qltb_lt in Hxy. repeat split.
      * right. destruct Hin as [-> | Hin]; [now left | now right].
      * eapply Qle_trans; [apply Qlt_le_weak; exact Hxy | exact Hle].
      * now constructor.
    + apply Qltb_ge in Hxy. repeat split.
      * destruct Hin as [-> | Hin]; [now left | right; now right].
      * exact Hle.
      * constructor; [eapply Qle_trans; eassumption | exact Hall].
Qed.

(** [min] of a non-empty list returns one of its elements, below all. *)
Lemma py_min_spec (l : list Q) :
  l <> [] ->
  exists m, py_min l = Returns m /\ In m l /\ Forall (fun y => (m <= y)%Q) l.
Proof.
  destruct l as [|x l]; [congruence|]. intros _.
  destruct (fold_min_spec l x) as (Hin & Hle & Hall).
  eexists. split; [reflexivity|]. split.
  - destruct Hin as [-> | Hin]; [now left | now right].
  - now constructor.
Qed.

Lemma py_max_spec (l : list Q) :
  l <> [] ->
  exists m, py_max l = Returns m /\ In m l /\ Forall (fun y => (y <= m)%Q) l.
Proof.
  destruct l as [|x l]; [congruence|]. intros _.
  destruct (fold_max_spec l x) as (Hin & Hle & Hall).
  eexists. split; [reflexivity|]. split.
  - destruct Hin as [-> | Hin]; [now left | now right].
  - now constructor.
Qed.

Lemma distinct_keys_app_r (pre post : ModelDict) :
  distinct_keys (pre ++ post) -> distinct_keys post.
Proof.
  induction pre as [|[k m] pre IH]; [trivial|]. intros [_ H]. now apply IH.
Qed.

Lemma subscript_num_own_key (pre post : ModelDict) (z : Q) (m : RSModel) :
  distinct_keys (pre ++ (z, m) :: post) ->
  subscript_num (pre ++ (z, m) :: post) z = Returns m.
Proof.
  induction pre as [|[k m0] pre IH]; cbn.
  - intros _. now rewrite (proj2 (Qeq_bool_iff z z) (Qeq_refl z)).
  - intros [Hk Hrest].
    destruct (Qeq_bool k z) eqn:Hkz; [|now apply IH].
    apply Qeq_bool_iff in Hkz. rewrite List.Forall_forall in Hk.
    exfalso. apply (Hk (z, m)); [|cbn; now symmetry].
    apply in_or_app. right. now left.
Qed.

Lemma draw_models_fields (vmin vmax : Q) (d : ModelDict) (ax : Axes) :
  lines (draw_models vmin vmax d ax)
    = (lines ax ++ map (model_line vmin vmax) d) /\
  scatters (draw_models vmin vmax d ax)
    = (scatters ax ++ map (model_marker vmin vmax) d) /\
  errorbars (draw_models vmin vmax d ax) = errorbars ax /\
  xaxis (draw_models vmin vmax d ax) = xaxis ax /\
  yaxis (draw_models vmin vmax d ax) = yaxis ax.
Proof.
  revert ax. induction d as [|zm d IH]; intros ax; cbn.
  - now rewrite !app_nil_r.
  - destruct (IH (add_scatter (model_marker vmin vmax zm)
                    (add_line (model_line vmin vmax zm) ax)))
      as (Hl & Hs & He & Hx & Hy).
    unfold draw_models in *. rewrite Hl, Hs, He, Hx, Hy. cbn.
    now rewrite <- !app_assoc.
Qed.

Lemma add_one_model_draws (vmin vmax z : Q) (m : RSModel) (ax : Axes) :
  add_one_model m (ToRgba vmin vmax z) ax
  = (Returns tt, add_scatter (model_marker vmin vmax (z, m))
                   (add_line (model_line vmin vmax (z, m)) ax)).
Proof. reflexivity. Qed.

Lemma models_loop (vmin vmax : Q) (pre post : ModelDict) (fig : Figure)
    (ax : Axes) :
  distinct_keys (pre ++ post) ->
  for_each (keys post) (fun z =>
      rs_model ← lift (subscript_num (pre ++ post) z);
      on_ax (add_one_model rs_model (ToRgba vmin vmax z))) (fig, ax)
  = (Returns tt, (fig, draw_models vmin vmax post ax)).
Proof.
  revert pre ax. induction post as [|[z m] post IH]; intros pre ax Hd.
  - reflexivity.
  - cbn [keys map fst for_each]. unfold mbind at 1, Py_bind at 1.
    unfold mbind at 1, Py_bind at 1, lift at 1.
    rewrite (subscript_num_own_key pre post z m Hd). cbn.
    specialize (IH (pre ++ [(z, m)])). rewrite <- app_assoc in IH.
    cbn in IH. unfold keys in IH.
    unfold on_ax at 1. rewrite add_one_model_draws. now rewrite IH.
Qed.

Lemma nonsingular_regular (vmin vmax expander : Q) :
  (vmin <= vmax)%Q -> singular vmin vmax = false ->
  nonsingular vmin vmax expander = (vmin, vmax).
Proof.
  intros Hle Hs. unfold nonsingular.
  rewrite (proj2 (Qltb_ge vmax vmin) Hle).
  unfold singular in Hs. apply orb_false_iff in Hs as [H1 H2].
  now rewrite H1, H2.
Qed.

Lemma add_all_models_runs (steal_axs : list Axes) (cfg : Cfg)
    (models : gmap string ModelDict) (d : ModelDict) :
  models !! color cfg = Some d -> d <> [] -> distinct_keys d ->
  exists vmin vmax,
    (In vmin (keys d) /\ Forall (fun z => (vmin <= z)%Q) (keys d)) /\
    (In vmax (keys d) /\ Forall (fun z => (z <= vmax)%Q) (keys d)) /\
    forall fig ax,
      add_all_models steal_axs cfg models (fig, ax)
      = match steal_axs with
        | [] =>
            (Raises (IndexError "list index out of range"),
             (fig, draw_models vmin vmax d ax))
        | _ :: _ =>
            (Returns tt,
             ({| colorbars :=
                   colorbars fig ++ [redshift_colorbar vmin vmax steal_axs] |},
              draw_models vmin vmax d ax))
        end.
Proof.
  intros Hd Hne Hdistinct.
  assert (Hkeys : keys d <> []) by (destruct d; [congruence | discriminate]).
  destruct (py_min_spec (keys d) Hkeys) as (vmin & Hmin & Hmin_in & Hmin_le).
  destruct (py_max_spec (keys d) Hkeys) as (vmax & Hmax & Hmax_in & Hmax_le).
  exists vmin, vmax. repeat split; trivial.
  intros fig ax.
  unfold add_all_models, mbind at 1 2 3 4, Py_bind at 1 2 3 4, lift at 1 2 3,
    subscript.
  rewrite Hd, Hmin, Hmax.
  pose proof (models_loop vmin vmax [] d fig ax Hdistinct) as Hloop.
  cbn [app] in Hloop. rewrite Hloop.
  destruct steal_axs; reflexivity.
Qed.

(** The thirty ticks of the colorbar: 0, 0.1, ..., 2.9. *)
Lemma arange_0_3_tenths :
  Forall2 Qeq (arange 0 3 0.1)
          (map (fun k : nat => inject_Z (Z.of_nat k) / 10)%Q (seq 0 30)).
Proof. vm_compute. repeat (constructor; [reflexivity|]). constructor. Qed.

(** C5 (as amended).  Called with at least one axes to take room from,
    [add_all_models] attaches one colorbar to the figure, labelled
    "Redshift".  Its range is the smallest and the largest redshift among
    the keys of the models of the active colour after matplotlib has made
    it non-singular: exactly these two when they are apart, a widened
    interval when all redshifts coincide.  Its ticks are
    [np.arange(0, 3, 0.1)], the thirty values 0, 0.1, ..., 2.9 (3 itself
    is not a tick), whatever the redshifts of the models are. *)
Theorem add_all_models_colorbar (steal_axs : list Axes) (cfg : Cfg)
    (models : gmap string ModelDict) (d : ModelDict) (fig : Figure)
    (ax : Axes) :
  models !! color cfg = Some d -> d <> [] -> distinct_keys d ->
  steal_axs <> [] ->
  exists vmin vmax cb ticks fig' ax',
    add_all_models steal_axs cfg models (fig, ax)
      = (Returns tt, (fig', ax')) /\
    colorbars fig' = colorbars fig ++ [cb] /\
    (In vmin (keys d) /\ Forall (fun z => (vmin <= z)%Q) (keys d)) /\
    (In vmax (keys d) /\ Forall (fun z => (z <= vmax)%Q) (keys d)) /\
    (cb_vmin cb, cb_vmax cb) = nonsingular vmin vmax 0.1 /\
    (singular vmin vmax = false -> cb_vmin cb = vmin /\ cb_vmax cb = vmax) /\
    cb_label cb = Some "Redshift" /\
    cb_ticks cb = Some ticks /\
    ticks = arange 0 3 0.1 /\
    Forall2 Qeq ticks
            (map (fun k : nat => inject_Z (Z.of_nat k) / 10)%Q (seq 0 30)) /\
    Forall (fun t => (0 <= t)%Q /\ (t < 3)%Q) ticks.
Proof.
  intros Hd Hne Hdistinct Hsteal.
  destruct (add_all_models_runs steal_axs cfg models d Hd Hne Hdistinct)
    as (vmin & vmax & Hmin & Hmax & Hrun).
  exists vmin, vmax, (redshift_colorbar vmin vmax steal_axs), (arange 0 3 0.1).
  do 2 eexists. split.
  { rewrite Hrun. destruct steal_axs; [congruence | reflexivity]. }
  cbn [colorbars cb_vmin cb_vmax cb_label cb_ticks redshift_colorbar].
  split; [reflexivity|]. split; [exact Hmin|]. split; [exact Hmax|].
  split; [now destruct (nonsingular vmin vmax 0.1)|]. split.
  { intros Hs. rewrite nonsingular_regular; [now split | | exact Hs].
    destruct Hmin as [_ Hle], Hmax as [Hin _].
    rewrite List.Forall_forall in Hle. now apply Hle. }
  split; [reflexivity|]. split; [reflexivity|]. split; [reflexivity|].
  split; [apply arange_0_3_tenths|].
  vm_compute. repeat (constructor; [split; [discriminate | reflexivity]|]).
  constructor.
Qed.

Lemma add_all_models_colorbar_witness :
  exists vmin vmax cb ticks fig' ax',
    add_all_models [new_axes] example_cfg example_models
                   ({| colorbars := [] |}, new_axes)
      = (Returns tt, (fig', ax')) /\
    colorbars fig' = [] ++ [cb] /\
    (In vmin (keys example_model_dict) /\
     Forall (fun z => (vmin <= z)%Q) (keys example_model_dict)) /\
    (In vmax (keys example_model_dict) /\
     Forall (fun z => (z <= vmax)%Q) (keys example_model_dict)) /\
    (cb_vmin cb, cb_vmax cb) = nonsingular vmin vmax 0.1 /\
    (singular vmin vmax = false -> cb_vmin cb = vmin /\ cb_vmax cb = vmax) /\
    cb_label cb = Some "Redshift" /\
    cb_ticks cb = Some ticks /\
    ticks = arange 0 3 0.1 /\
    Forall2 Qeq ticks
            (map (fun k : nat => inject_Z (Z.of_nat k) / 10)%Q (seq 0 30)) /\
    Forall (fun t => (0 <= t)%Q /\ (t < 3)%Q) ticks.
Proof.
  apply (add_all_models_colorbar [new_axes] example_cfg example_models
           example_model_dict {| colorbars := [] |} new_axes).
  - reflexivity.
  - discriminate.
  - cbn. repeat split; repeat constructor; cbn; discriminate.
  - discriminate.
Defined.

(** Where the claim as first stated fails.  On the example models the
    ticks are not the 0.1-step sequence that ends at 3: there are thirty
    of them and none is 3.  For a single model at redshift 0.5 the range
    of the colorbar is not [0.5, 0.5] but [0.45, 0.55]. *)
Lemma add_all_models_colorbar_counterexample :
  (exists fig' ax' cb ticks,
     add_all_models [new_axes] example_cfg example_models
                    ({| colorbars := [] |}, new_axes)
       = (Returns tt, (fig', ax')) /\
     colorbars fig' = [cb] /\ cb_ticks cb = Some ticks /\
     length ticks = 30%nat /\
     ~ Exists (fun t => (t == 3)%Q) ticks /\
     ~ Forall2 Qeq ticks
         (map (fun k : nat => inject_Z (Z.of_nat k) / 10)%Q (seq 0 31))) /\
  (exists fig' ax' cb,
     add_all_models [new_axes] example_cfg single_models
                    ({| colorbars := [] |}, new_axes)
       = (Returns tt, (fig', ax')) /\
     colorbars fig' = [cb] /\
     keys single_model_dict = [0.5%Q] /\
     ~ ((cb_vmin cb == 0.5)%Q /\ (cb_vmax cb == 0.5)%Q) /\
     (cb_vmin cb == 0.45)%Q /\ (cb_vmax cb == 0.55)%Q).
Proof.
  split.
  - do 4 eexists. split; [vm_compute; reflexivity|].
    split; [reflexivity|]. split; [reflexivity|]. split; [reflexivity|].
    split.
    + intros H. apply List.Exists_exists in H as (t & Hin & Ht).
      vm_compute in Hin.
      repeat (destruct Hin as [<- | Hin]; [discriminate Ht|]).
      exact Hin.
    + intros H. apply Forall2_length in H. vm_compute in H. discriminate.
  - do 3 eexists. split; [vm_compute; reflexivity|].
    split; [reflexivity|]. split; [reflexivity|]. cbn [cb_vmin cb_vmax].
    split; [|split; reflexivity].
    intros [H _]. vm_compute in H. discriminate.
Qed.

(** The scale of the example runs from 0.1 to 0.9. *)
Example example_colorbar_domain :
  map (fun cb => (cb_vmin cb, cb_vmax cb))
      (colorbars (fst (snd (add_all_models [new_axes] example_cfg
                              example_models
                              ({| colorbars := [] |}, new_axes)))))
  = [ (0.1, 0.9)%Q ].
Proof. vm_compute. reflexivity. Qed.

(** C6.  For the models of the active colour, [add_all_models] adds to the
    axes, per redshift key and in the order of the dict, one line through
    the two points (10, rs_color(10)) and (30, rs_color(30)) of that
    redshift's model, and one marker at the model's (mag_point,
    color_point); a dict of n redshifts gives n lines and n markers.  The
    lines and markers are drawn before the colorbar is made: they are there
    when the call returns and also when, with no axes to take room from,
    it ends in the [IndexError] of [fig.colorbar]. *)
Theorem add_all_models_one_line_per_redshift (steal_axs : list Axes)
    (cfg : Cfg) (models : gmap string ModelDict) (d : ModelDict)
    (fig : Figure) (ax : Axes) :
  models !! color cfg = Some d -> d <> [] -> distinct_keys d ->
  exists r new_lines new_markers fig' ax',
    add_all_models steal_axs cfg models (fig, ax) = (r, (fig', ax')) /\
    (steal_axs <> [] -> r = Returns tt) /\
    (steal_axs = [] ->
     r = Raises (IndexError "list index out of range") /\ fig' = fig) /\
    lines ax' = lines ax ++ new_lines /\
    scatters ax' = scatters ax ++ new_markers /\
    length new_lines = length d /\ length new_markers = length d /\
    Forall2 (fun zm l =>
               ln_xs l = [10; 30]%Q /\
               ln_ys l = [rs_color (snd zm) 10; rs_color (snd zm) 30]%Q)
            d new_lines /\
    Forall2 (fun zm s =>
               sc_xs s = [mag_point (snd zm)] /\
               sc_ys s = [color_point (snd zm)])
            d new_markers /\
    errorbars ax' = errorbars ax.
Proof.
  intros Hd Hne Hdistinct.
  destruct (add_all_models_runs steal_axs cfg models d Hd Hne Hdistinct)
    as (vmin & vmax & _ & _ & Hrun).
  destruct (draw_models_fields vmin vmax d ax) as (Hl & Hs & He & _ & _).
  assert (Hlines : Forall2 (fun zm l =>
               ln_xs l = [10; 30]%Q /\
               ln_ys l = [rs_color (snd zm) 10; rs_color (snd zm) 30]%Q)
            d (map (model_line vmin vmax) d))
    by (clear; induction d; constructor; auto).
  assert (Hmarkers : Forall2 (fun zm s =>
               sc_xs s = [mag_point (snd zm)] /\
               sc_ys s = [color_point (snd zm)])
            d (map (model_marker vmin vmax) d))
    by (clear; induction d; constructor; auto).
  rewrite Hrun.
  destruct steal_axs as [|a steal_axs];
    eexists; exists (map (model_line vmin vmax) d),
                    (map (model_marker vmin vmax) d); do 2 eexists;
    (split; [reflexivity|]); rewrite Hl, Hs, He, !length_map;
    repeat split; trivial; congruence.
Qed.

Lemma add_all_models_one_line_per_redshift_witness :
  exists r new_lines new_markers fig' ax',
    add_all_models [new_axes] example_cfg example_models
                   ({| colorbars := [] |}, new_axes)
      = (r, (fig', ax')) /\
    ([new_axes] <> [] -> r = Returns tt) /\
    ([new_axes] = [] ->
     r = Raises (IndexError "list index out of range") /\
     fig' = {| colorbars := [] |}) /\
    lines ax' = lines new_axes ++ new_lines /\
    scatters ax' = scatters new_axes ++ new_markers /\
    length new_lines = length example_model_dict /\
    length new_markers = length example_model_dict /\
    Forall2 (fun zm l =>
               ln_xs l = [10; 30]%Q /\
               ln_ys l = [rs_color (snd zm) 10; rs_color (snd zm) 30]%Q)
            example_model_dict new_lines /\
    Forall2 (fun zm s =>
               sc_xs s = [mag_point (snd zm)] /\
               sc_ys s = [color_point (snd zm)])
            example_model_dict new_markers /\
    errorbars ax' = errorbars new_axes.
Proof.
  apply (add_all_models_one_line_per_redshift [new_axes] example_cfg
           example_models example_model_dict {| colorbars := [] |} new_axes).
  - reflexivity.
  - discriminate.
  - cbn. repeat split; repeat constructor; cbn; discriminate.
Defined.

(** The example overlay: three redshifts, three lines and three markers;
    with no axes for the colorbar the lines are drawn all the same, and
    the call ends in an [IndexError]. *)
Example example_overlay_counts :
  let run steal := add_all_models steal example_cfg example_models
                     ({| colorbars := [] |}, new_axes) in
  fst (run [new_axes]) = Returns tt /\
  length (lines (snd (snd (run [new_axes])))) = 3%nat /\
  length (scatters (snd (snd (run [new_axes])))) = 3%nat /\
  fst (run []) = Raises (IndexError "list index out of range") /\
  length (lines (snd (snd (run [])))) = 3%nat /\
  colorbars (fst (snd (run []))) = [].
Proof. vm_compute. repeat split; reflexivity. Qed.

(** ** The sky map *)

Lemma sort_sources_returns (color : string) (sources : list Source) :
  Forall (flag_set color) sources ->
  forall l0, exists l,
    sort_sources color sources l0 = Returns l /\
    all_decs l ≡ₚ all_decs l0 ++ map dec sources.
Proof.
  induction 1 as [|s sources [b Hb] _ IH]; intros l0.
  - exists l0. split; [reflexivity|]. now rewrite app_nil_r.
  - destruct (sort_source_set color s l0 b Hb) as (l1 & Hsort & Hl1).
    destruct (IH l1) as (l & Hl & Hperm).
    exists l. split.
    + cbn [sort_sources]. rewrite Hsort. exact Hl.
    + rewrite Hperm. cbn [map]. unfold all_decs.
      destruct b; [|destruct (near_center s)];
        destruct Hl1 as (-> & -> & ->); solve_Permutation.
Qed.

Lemma cos_Rabs (x : R) : cos (Rabs x) = cos x.
Proof. unfold Rabs. destruct (Rcase_abs x); [apply cos_neg | reflexivity]. Qed.

(** The absolute value does not change the cosine, and the mean of two
    rationals is the mean of their images. *)
Lemma aspect_ratio_mean (lo hi : Q) :
  aspect_ratio ((lo + hi) / 2)
  = (/ cos ((Q2R lo + Q2R hi) / 2 * PI / 180))%R.
Proof.
  unfold aspect_ratio. rewrite cos_Rabs.
  rewrite Qreals.Q2R_div by discriminate. rewrite Qreals.Q2R_plus.
  replace (Q2R 2) with 2%R by (unfold Q2R; cbn; lra).
  unfold Rdiv at 1. now rewrite Rmult_1_l.
Qed.

Lemma location_returns (cluster : Cluster) (color : string) (ax : Axes) :
  sources_list cluster <> [] ->
  Forall (flag_set color) (sources_list cluster) ->
  exists l lo hi,
    sort_sources color (sources_list cluster) no_lists = Returns l /\
    all_decs l ≡ₚ map dec (sources_list cluster) /\
    py_min (all_decs l) = Returns lo /\
    py_max (all_decs l) = Returns hi /\
    fst (location cluster color ax) = Returns tt /\
    aspect (snd (location cluster color ax))
      = Some (aspect_ratio ((lo + hi) / 2)).
Proof.
  intros Hne Hflags.
  destruct (sort_sources_returns color _ Hflags no_lists) as (l & Hl & Hperm).
  cbn in Hperm.
  assert (Hdecs : all_decs l <> []).
  { intros Hnil. rewrite Hnil in Hperm.
    apply Permutation_nil in Hperm. destruct (sources_list cluster);
      [congruence | discriminate]. }
  destruct (py_min_spec _ Hdecs) as (lo & Hlo & _).
  destruct (py_max_spec _ Hdecs) as (hi & Hhi & _).
  exists l, lo, hi. repeat split; trivial;
    unfold location, mbind, Py_bind, lift, modify; rewrite Hl;
    fold (all_decs l); rewrite Hlo, Hhi; reflexivity.
Qed.

(** C7.  The aspect ratio that [location] sets is the reciprocal of the
    cosine of the middle declination, in radians: the middle is half the sum
    of the smallest and the largest declination of all the sources plotted,
    members, central and others together.  When these two are -10 and 10 the
    ratio is exactly 1. *)
Theorem location_aspect_ratio (cluster : Cluster) (color : string)
    (ax : Axes) :
  sources_list cluster <> [] ->
  Forall (flag_set color) (sources_list cluster) ->
  exists l lo hi r,
    sort_sources color (sources_list cluster) no_lists = Returns l /\
    rs_member_dec l ++ center_dec l ++ rest_dec l
      ≡ₚ map dec (sources_list cluster) /\
    (In lo (map dec (sources_list cluster)) /\
     Forall (fun d => (lo <= d)%Q) (map dec (sources_list cluster))) /\
    (In hi (map dec (sources_list cluster)) /\
     Forall (fun d => (d <= hi)%Q) (map dec (sources_list cluster))) /\
    fst (location cluster color ax) = Returns tt /\
    aspect (snd (location cluster color ax)) = Some r /\
    r = (/ cos ((Q2R lo + Q2R hi) / 2 * PI / 180))%R /\
    ((lo == -10)%Q -> (hi == 10)%Q -> r = 1%R).
Proof.
  intros Hne Hflags.
  destruct (location_returns cluster color ax Hne Hflags)
    as (l & lo & hi & Hl & Hperm & Hlo & Hhi & Hret & Haspect).
  assert (Hdecs : all_decs l <> []).
  { intros Hnil. rewrite Hnil in Hlo. discriminate. }
  destruct (py_min_spec _ Hdecs) as (lo' & Hlo' & Hlo_in & Hlo_le).
  destruct (py_max_spec _ Hdecs) as (hi' & Hhi' & Hhi_in & Hhi_le).
  rewrite Hlo in Hlo'. injection Hlo' as <-.
  rewrite Hhi in Hhi'. injection Hhi' as <-.
  exists l, lo, hi, (aspect_ratio ((lo + hi) / 2)).
  split; [exact Hl|]. split; [exact Hperm|].
  split; [split|split; [split|]].
  - eapply Permutation_in; eassumption.
  - eapply Permutation_Forall; eassumption.
  - eapply Permutation_in; eassumption.
  - eapply Permutation_Forall; eassumption.
  - split; [exact Hret|]. split; [exact Haspect|].
    split; [apply aspect_ratio_mean|].
    intros Hlo10 Hhi10. rewrite aspect_ratio_mean.
    rewrite (Qreals.Qeq_eqR _ _ Hlo10), (Qreals.Qeq_eqR _ _ Hhi10).
    replace ((Q2R (-10) + Q2R 10) / 2 * PI / 180)%R with 0%R
      by (unfold Q2R; cbn; lra).
    rewrite cos_0. apply Rinv_1.
Qed.

Lemma location_aspect_ratio_witness :
  exists l lo hi r,
    sort_sources "r-z" (sources_list pair_cluster) no_lists = Returns l /\
    rs_member_dec l ++ center_dec l ++ rest_dec l
      ≡ₚ map dec (sources_list pair_cluster) /\
    (In lo (map dec (sources_list pair_cluster)) /\
     Forall (fun d => (lo <= d)%Q) (map dec (sources_list pair_cluster))) /\
    (In hi (map dec (sources_list pair_cluster)) /\
     Forall (fun d => (d <= hi)%Q) (map dec (sources_list pair_cluster))) /\
    fst (location pair_cluster "r-z" new_axes) = Returns tt /\
    aspect (snd (location pair_cluster "r-z" new_axes)) = Some r /\
    r = (/ cos ((Q2R lo + Q2R hi) / 2 * PI / 180))%R /\
    ((lo == -10)%Q -> (hi == 10)%Q -> r = 1%R).
Proof.
  apply (location_aspect_ratio pair_cluster "r-z" new_axes).
  - discriminate.
  - repeat constructor; eexists; vm_compute; reflexivity.
Defined.

(** On the pair the middle declination is 0 and the ratio is 1. *)
Example pair_aspect_is_one :
  aspect (snd (location pair_cluster "r-z" new_axes)) = Some 1%R.
Proof.
  assert (H : aspect (snd (location pair_cluster "r-z" new_axes))
              = Some (aspect_ratio ((-10 + 10) / 2))) by reflexivity.
  rewrite H, aspect_ratio_mean. f_equal.
  replace ((Q2R (-10) + Q2R 10) / 2 * PI / 180)%R with 0%R
    by (unfold Q2R; cbn; lra).
  rewrite cos_0. apply Rinv_1.
Qed.

(** C8.  On a cluster without sources [location] raises the [ValueError]
    of [min] on an empty sequence; no aspect ratio is set. *)
Theorem location_empty_cluster_raises (name : string) (color : string)
    (ax : Axes) :
  fst (location {| name := name; sources_list := [] |} color ax)
    = Raises (ValueError "min() arg is an empty sequence") /\
  aspect (snd (location {| name := name; sources_list := [] |} color ax))
    = aspect ax.
Proof. split; reflexivity. Qed.

(** The three empty layers, the labels and the legend are on the axes by
    the time the exception is raised. *)
Lemma location_empty_cluster_layers (name : string) (color : string)
    (ax : Axes) :
  let ax' := snd (location {| name := name; sources_list := [] |} color ax) in
  exists a b c,
    scatters ax' = scatters ax ++ [a; b; c] /\
    sc_xs a = [] /\ sc_xs b = [] /\ sc_xs c = [] /\
    legend ax' = true.
Proof.
  unfold location, mbind, Py_bind, lift, modify. cbn.
  do 3 eexists. rewrite <- !app_assoc. cbn. repeat split.
Qed.

(** ** The redshift label *)

(** [round_half_even] returns an integer at most one half away. *)
Lemma round_half_even_cases (y : Q) :
  let k := round_half_even y in
  (2 * Z.abs (Qnum y - k * QDen y) <= QDen y)%Z.
Proof.
  unfold round_half_even. destruct y as [n d]. cbn [Qnum Qden].
  pose proof (Z.div_mod n (Z.pos d) ltac:(lia)) as Hdm.
  pose proof (Z.mod_pos_bound n (Z.pos d) ltac:(lia)) as Hb.
  set (q := (n / Z.pos d)%Z) in *. set (r := (n mod Z.pos d)%Z) in *.
  destruct (Z.compare_spec (2 * r) (Z.pos d)) as [He | Hl | Hg];
    [destruct (Z.even q)|..]; nia.
Qed.

Lemma round_half_even_bound (y : Q) :
  (Qabs (y - inject_Z (round_half_even y)) <= 1 # 2)%Q.
Proof.
  pose proof (round_half_even_cases y) as H. cbn zeta in H.
  set (k := round_half_even y) in *.
  apply Qabs_Qle_condition. unfold Qle, Qminus, Qplus, Qopp, inject_Z. cbn.
  destruct y as [n d]. cbn in *. lia.
Qed.

Lemma round_half_even_near (y : Q) (k : Z) :
  (inject_Z k - (1 # 2) < y)%Q -> (y < inject_Z k + (1 # 2))%Q ->
  round_half_even y = k.
Proof.
  unfold Qlt, Qminus, Qplus, Qopp, inject_Z, round_half_even.
  destruct y as [n d]. cbn [Qnum Qden]. intros Hlo Hhi.
  pose proof (Z.div_mod n (Z.pos d) ltac:(lia)) as Hdm.
  pose proof (Z.mod_pos_bound n (Z.pos d) ltac:(lia)) as Hb.
  set (q := (n / Z.pos d)%Z) in *. set (r := (n mod Z.pos d)%Z) in *.
  assert (Hq : q = k \/ q = (k - 1)%Z) by nia.
  destruct (Z.compare_spec (2 * r) (Z.pos d)) as [He | Hl | Hg];
    [destruct (Z.even q)|..]; nia.
Qed.

Lemma round2_near (x : Q) (k : Z) :
  (0 <= x)%Q -> (0 <= k)%Z ->
  (inject_Z k - (1 # 2) < x * 100)%Q -> (x * 100 < inject_Z k + (1 # 2))%Q ->
  round2 x = {| negative := false; hundredths := k |}.
Proof.
  intros Hx Hk Hlo Hhi. unfold round2.
  rewrite (round_half_even_near _ k Hlo Hhi), (Z.abs_eq k Hk).
  now rewrite (proj2 (Qltb_ge x 0) Hx).
Qed.

Lemma digit_cases (d : N) :
  (d < 10)%N ->
  d = 0%N \/ d = 1%N \/ d = 2%N \/ d = 3%N \/ d = 4%N \/ d = 5%N \/
  d = 6%N \/ d = 7%N \/ d = 8%N \/ d = 9%N.
Proof. lia. Qed.

Lemma digit_of_pretty_char (d : N) :
  (d < 10)%N ->
  digit_of (pretty_N_char d) = Some d /\
  Ascii.eqb (pretty_N_char d) "."%char = false.
Proof.
  intros Hd. destruct (digit_cases d Hd) as
    [-> | [-> | [-> | [-> | [-> | [-> | [-> | [-> | [-> | ->]]]]]]]]];
    split; reflexivity.
Qed.

Lemma pretty_N_go_append (x : N) (s t : string) :
  pretty_N_go x s +:+ t = pretty_N_go x (s +:+ t).
Proof.
  revert s. induction (N.lt_wf_0 x) as [x _ IH]; intros s.
  destruct (N.eq_dec x 0%N) as [-> | Hx]; [reflexivity|].
  rewrite (pretty_N_go_step x s), (pretty_N_go_step x (s +:+ t)) by lia.
  rewrite IH by (apply N.div_lt; lia). reflexivity.
Qed.

Lemma read_integer_pretty_N_go (x : N) (s : string) :
  read_integer (pretty_N_go x s) 0 = read_integer s x.
Proof.
  revert s. induction (N.lt_wf_0 x) as [x _ IH]; intros s.
  destruct (N.eq_dec x 0%N) as [-> | Hx]; [reflexivity|].
  rewrite pretty_N_go_step by lia.
  rewrite IH by (apply N.div_lt; lia).
  cbn [read_integer].
  destruct (digit_of_pretty_char (x mod 10)) as [-> ->];
    [apply N.mod_lt; lia|].
  f_equal. rewrite N.mul_comm. symmetry. apply N.div_mod. lia.
Qed.

Lemma read_integer_pretty (z : Z) (t : string) :
  (0 <= z)%Z ->
  read_integer (pretty z +:+ t) 0 = read_integer t (Z.to_N z).
Proof.
  destruct z as [|p|p]; [reflexivity | | lia]. intros _.
  change (pretty (Z.pos p)) with (pretty_N_go (N.pos p) EmptyString).
  rewrite pretty_N_go_append. apply read_integer_pretty_N_go.
Qed.

Lemma pretty_digit (d : Z) :
  (0 <= d < 10)%Z ->
  pretty d = String (pretty_N_char (Z.to_N d)) EmptyString.
Proof.
  intros Hd.
  assert (H : (d = 0 \/ d = 1 \/ d = 2 \/ d = 3 \/ d = 4 \/ d = 5 \/
               d = 6 \/ d = 7 \/ d = 8 \/ d = 9)%Z) by lia.
  destruct H as [-> | [-> | [-> | [-> | [-> | [-> | [-> | [-> | [-> | ->]]]]]]]]];
    reflexivity.
Qed.

Lemma read_decimal_unsigned (s : string) (v : N * nat) :
  read_integer s 0 = Some v -> read_decimal s = Some (false, v).
Proof.
  destruct s as [|c s]; [discriminate|]. intros H. unfold read_decimal.
  destruct (Ascii.eqb c "-"%char) eqn:Hc; [|now rewrite H].
  apply Ascii.eqb_eq in Hc. subst c. discriminate H.
Qed.

(** What [str] prints reads back as the hundredths it was given, with one
    decimal when the last digit is zero and with two otherwise. *)
Lemma read_decimal_str (neg : bool) (h : Z) :
  (0 <= h)%Z ->
  read_decimal (str {| negative := neg; hundredths := h |})
  = Some (neg, if (h mod 10 =? 0)%Z then (Z.to_N (h / 10), 1%nat)
               else (Z.to_N h, 2%nat)).
Proof.
  intros Hh. unfold str. cbn [negative hundredths].
  pose proof (Z.mod_pos_bound h 100 ltac:(lia)) as Hf.
  pose proof (Z.div_mod h 100 ltac:(lia)) as Hdm.
  set (ip := (h / 100)%Z) in *. set (frac := (h mod 100)%Z) in *.
  assert (Hip : (0 <= ip)%Z) by (apply Z.div_pos; lia).
  pose proof (Z.mod_pos_bound frac 10 ltac:(lia)) as Hd0.
  pose proof (Z.div_mod frac 10 ltac:(lia)) as Hfdm.
  assert (Hd1 : (0 <= frac / 10 < 10)%Z).
  { split; [apply Z.div_pos; lia | apply Z.div_lt_upper_bound; lia]. }
  assert (Hlast : (h mod 10 = frac mod 10)%Z).
  { subst frac. rewrite Hdm at 1.
    replace (100 * ip + h mod 100)%Z with (h mod 100 + (10 * ip) * 10)%Z
      by lia.
    now rewrite Z.mod_add by lia. }
  rewrite Hlast.
  assert (Hread : read_integer
            (pretty ip +:+ "." +:+
             (if (frac mod 10 =? 0)%Z then pretty (frac / 10)%Z
              else pretty (frac / 10)%Z +:+ pretty (frac mod 10)%Z)) 0
          = Some (if (frac mod 10 =? 0)%Z then (Z.to_N (h / 10), 1%nat)
                  else (Z.to_N h, 2%nat))).
  { rewrite read_integer_pretty by exact Hip.
    change ("." +:+ ?t) with (String "."%char t). cbn [read_integer].
    change (Ascii.eqb "."%char "."%char) with true. cbn iota.
    rewrite (pretty_digit (frac / 10)) by exact Hd1.
    destruct (frac mod 10 =? 0)%Z eqn:Hz.
    - apply Z.eqb_eq in Hz. cbn [read_fraction].
      destruct (digit_of_pretty_char (Z.to_N (frac / 10))) as [-> _];
        [lia|].
      do 2 f_equal.
      assert (h / 10 = ip * 10 + frac / 10)%Z.
      { symmetry. apply (Z.div_unique h 10 _ 0); lia. }
      lia.
    - apply Z.eqb_neq in Hz.
      rewrite (pretty_digit (frac mod 10)) by exact Hd0.
      change (String ?c EmptyString +:+ ?t) with (String c t).
      cbn [read_fraction].
      destruct (digit_of_pretty_char (Z.to_N (frac / 10))) as [-> _];
        [lia|].
      destruct (digit_of_pretty_char (Z.to_N (frac mod 10))) as [-> _];
        [lia|].
      do 2 f_equal. lia. }
  destruct neg.
  - change ("-" +:+ ?t) with (String "-"%char t). unfold read_decimal.
    change (Ascii.eqb "-"%char "-"%char) with true. cbn iota.
    now rewrite Hread.
  - change (EmptyString +:+ ?t) with t.
    now apply read_decimal_unsigned.
Qed.

Lemma decimal_value_hundredths (h : Z) :
  (0 <= h)%Z ->
  (decimal_value (if (h mod 10 =? 0)%Z then (Z.to_N (h / 10), 1%nat)
                  else (Z.to_N h, 2%nat))
   == inject_Z h / 100)%Q.
Proof.
  intros Hh. destruct (h mod 10 =? 0)%Z eqn:Hz; unfold decimal_value;
    cbn [fst snd].
  - apply Z.eqb_eq in Hz.
    pose proof (Z.div_mod h 10 ltac:(lia)) as Hdm.
    rewrite Z2N.id by (apply Z.div_pos; lia).
    set (q := (h / 10)%Z) in *. rewrite Hz in Hdm.
    change (10 ^ Z.of_nat 1)%Z with 10%Z.
    unfold Qeq, Qdiv, Qmult, Qinv, inject_Z. cbn. lia.
  - rewrite Z2N.id by exact Hh.
    change (10 ^ Z.of_nat 2)%Z with 100%Z.
    unfold Qeq, Qdiv, Qmult, Qinv, inject_Z. cbn. lia.
Qed.

Lemma round2_close (x : Q) :
  (Qabs (Qabs x - inject_Z (hundredths (round2 x)) / 100) <= 1 # 200)%Q.
Proof.
  unfold round2. cbn [hundredths].
  pose proof (round_half_even_bound (x * 100)) as Hb.
  set (k := round_half_even (x * 100)) in *.
  assert (H1 : (Qabs (x * 100) - Qabs (inject_Z k) <= 1 # 2)%Q).
  { eapply Qle_trans; [apply Qabs_triangle_reverse | exact Hb]. }
  assert (H2 : (Qabs (inject_Z k) - Qabs (x * 100) <= 1 # 2)%Q).
  { eapply Qle_trans; [apply Qabs_triangle_reverse|].
    rewrite Qabs_Qminus. exact Hb. }
  rewrite Qabs_Qmult in H1, H2.
  change (Qabs (inject_Z k)) with (inject_Z (Z.abs k)) in H1, H2.
  change (Qabs 100) with 100%Q in H1, H2.
  set (a := Qabs x) in *. set (b := inject_Z (Z.abs k)) in *.
  apply Qabs_Qle_condition.
  unfold Qdiv. change (/ 100)%Q with (1 # 100)%Q.
  split; Lqa.lra.
Qed.

(** C9.  [add_redshift] returns normally and adds exactly one text to the
    axes, at the upper right (0.97, 0.97, aligned right and top); nothing
    else on the axes changes.  For a plain number the text is "z="
    followed by [str(round(z, 2))]; for an [AsymmetricData] it is the LaTeX
    text z=$\mathregular{{v}^{+u}_{\,-l}}$, in which v, u and l are
    [str(round(., 2))] of the value, the upper and the lower error, each in
    braces of its own, the upper after a "+", the lower after a thin space
    and a "-".  Each such number is printed as a decimal with one or two
    digits after the point that is within half a hundredth of the number
    given, with a leading "-" exactly when the number is negative.  A value
    that rounds to 1.23 with errors that round to 0.05 and 0.03 is printed
    as "1.23", "+0.05" and "-0.03". *)
Theorem add_redshift_text :
  (forall redshift ax,
     fst (add_redshift redshift ax) = Returns tt /\
     texts (snd (add_redshift redshift ax))
     = texts ax ++ [ {| tx_x := 0.97; tx_y := 0.97;
                        tx_s := redshift_text redshift;
                        tx_ha := "right"; tx_va := "top" |} ] /\
     errorbars (snd (add_redshift redshift ax)) = errorbars ax /\
     lines (snd (add_redshift redshift ax)) = lines ax /\
     scatters (snd (add_redshift redshift ax)) = scatters ax /\
     xaxis (snd (add_redshift redshift ax)) = xaxis ax /\
     yaxis (snd (add_redshift redshift ax)) = yaxis ax) /\
  (forall z, redshift_text (Number z) = "z=" +:+ str (round2 z)) /\
  (forall d,
     redshift_text (WithErrors d)
     = "z=$\mathregular{" +:+
       ("{" +:+ str (round2 (asym_value d)) +:+ "}") +:+ "^" +:+
       ("{+" +:+ str (round2 (upper_error d)) +:+ "}") +:+ "_" +:+
       ("{\,-" +:+ str (round2 (lower_error d)) +:+ "}") +:+ "}$") /\
  (forall x,
     exists v,
       read_decimal (str (round2 x)) = Some (negative (round2 x), v) /\
       (snd v = 1 \/ snd v = 2)%nat /\
       (Qabs (Qabs x - decimal_value v) <= 1 # 200)%Q /\
       (negative (round2 x) = true <-> (x < 0)%Q)) /\
  (forall v u l,
     (1.225 < v)%Q -> (v < 1.235)%Q ->
     (0.045 < u)%Q -> (u < 0.055)%Q ->
     (0.025 < l)%Q -> (l < 0.035)%Q ->
     redshift_text (WithErrors {| asym_value := v; upper_error := u;
                                  lower_error := l |})
     = "z=$\mathregular{{1.23}^{+0.05}_{\,-0.03}}$") /\
  (forall z, (1.225 < z)%Q -> (z < 1.235)%Q ->
     redshift_text (Number z) = "z=1.23").
Proof.
  split; [intros redshift ax; repeat split|].
  split; [reflexivity|]. split; [reflexivity|]. split; [|split].
  - intros x.
    assert (Hh : (0 <= hundredths (round2 x))%Z) by apply Z.abs_nonneg.
    pose proof (read_decimal_str (negative (round2 x))
                  (hundredths (round2 x)) Hh) as Hread.
    eexists. split; [exact Hread|]. split; [|split].
    + destruct (_ =? _)%Z; [left | right]; reflexivity.
    + rewrite decimal_value_hundredths by exact Hh. apply round2_close.
    + apply Qltb_lt.
  - intros v u l Hv1 Hv2 Hu1 Hu2 Hl1 Hl2. unfold redshift_text.
    cbn [asym_value upper_error lower_error].
    rewrite (round2_near v 123), (round2_near u 5), (round2_near l 3);
      try (unfold Qlt, Qle in *; cbn in *; lia).
    vm_compute. reflexivity.
  - intros z Hz1 Hz2. unfold redshift_text.
    rewrite (round2_near z 123); try (unfold Qlt, Qle in *; cbn in *; lia).
    vm_compute. reflexivity.
Qed.

Lemma add_redshift_text_witness :
  redshift_text (WithErrors {| asym_value := 1.234; upper_error := 0.05;
                               lower_error := 0.03 |})
  = "z=$\mathregular{{1.23}^{+0.05}_{\,-0.03}}$".
Proof.
  apply (proj1 (proj2 (proj2 (proj2 (proj2 add_redshift_text)))));
    reflexivity.
Defined.

(** The label of the example on fresh axes. *)
Example add_redshift_example :
  map tx_s (texts (snd (add_redshift
                          (WithErrors {| asym_value := 1.234;
                                         upper_error := 0.05;
                                         lower_error := 0.03 |}) new_axes)))
  = [ "z=$\mathregular{{1.23}^{+0.05}_{\,-0.03}}$" ] /\
  read_decimal (str (round2 1.234)) = Some (false, (123%N, 2%nat)) /\
  read_decimal (str (round2 (-0.5))) = Some (true, (5%N, 1%nat)) /\
  str (round2 12.3456) = "12.35" /\ str (round2 100) = "100.0".
Proof. vm_compute. repeat split; reflexivity. Qed.

(** * Further properties *)

(** ** More on the colour-magnitude diagram *)

Lemma comprehension_if_near_center (cfg : Cfg) (l : list Source) :
  comprehension_if (is_valid cfg) l
  = comprehension_if (is_valid cfg) (List.filter near_center l).
Proof.
  induction l as [|s l IH]; [reflexivity|].
  cbn [comprehension_if List.filter].
  destruct (near_center s) eqn:Hnear.
  - cbn [comprehension_if]. now rewrite IH.
  - assert (Hs : is_valid cfg s = Returns false)
      by (unfold is_valid; now rewrite Hnear).
    rewrite Hs, IH. cbn.
    now destruct (comprehension_if _ (List.filter near_center l)).
Qed.

(** X1.  Sources away from the centre have no effect on [cmd]: the result,
    exception included, is that of the cluster without them. *)
Theorem cmd_ignores_sources_away_from_centre (cluster : Cluster) (cfg : Cfg)
    (ax : Axes) :
  cmd cluster cfg ax
  = cmd {| name := name cluster;
           sources_list := List.filter near_center (sources_list cluster) |}
        cfg ax.
Proof.
  unfold cmd, valid_sources. cbn [sources_list name].
  now rewrite comprehension_if_near_center.
Qed.

Lemma is_valid_cases (cfg : Cfg) (s : Source) :
  (exists b, is_valid cfg s = Returns b) \/
  is_valid cfg s = Raises (KeyError (KStr (color cfg))).
Proof.
  unfold is_valid, subscript.
  destruct (near_center s); [|left; eauto].
  destruct (colors s !! color cfg); [left; eauto | now right].
Qed.

Lemma comprehension_if_missing_colour (cfg : Cfg) (l : list Source)
    (s : Source) :
  In s l -> near_center s = true -> colors s !! color cfg = None ->
  comprehension_if (is_valid cfg) l = Raises (KeyError (KStr (color cfg))).
Proof.
  intros Hin Hnear Hnone.
  assert (Hs : is_valid cfg s = Raises (KeyError (KStr (color cfg)))).
  { unfold is_valid, subscript. now rewrite Hnear, Hnone. }
  induction l as [|s0 l IH]; [contradiction|].
  cbn [comprehension_if].
  destruct (is_valid_cases cfg s0) as [[b Hb] | Hraise].
  - destruct Hin as [-> | Hin]; [congruence|].
    rewrite Hb, (IH Hin). reflexivity.
  - now rewrite Hraise.
Qed.

(** X2.  When a source near the centre does not carry the active colour,
    [cmd] raises the [KeyError] of that colour and leaves the axes as they
    were: nothing is drawn, whatever the other sources are. *)
Theorem cmd_missing_colour_raises (cluster : Cluster) (cfg : Cfg) (ax : Axes)
    (s : Source) :
  In s (sources_list cluster) -> near_center s = true ->
  colors s !! color cfg = None ->
  cmd cluster cfg ax = (Raises (KeyError (KStr (color cfg))), ax).
Proof.
  intros Hin Hnear Hnone. unfold cmd, valid_sources, mbind, Py_bind, lift.
  now rewrite (comprehension_if_missing_colour cfg _ s Hin Hnear Hnone).
Qed.

Lemma cmd_missing_colour_raises_witness :
  cmd no_colour_cluster example_cfg new_axes
  = (Raises (KeyError (KStr "r-z")), new_axes).
Proof.
  apply (cmd_missing_colour_raises no_colour_cluster example_cfg new_axes
           {| ra := 150; dec := 2; mags := ∅; colors := ∅;
              near_center := true; RS_member := Some ∅ |}).
  - right. left. reflexivity.
  - reflexivity.
  - reflexivity.
Defined.

Lemma draw_all_frame (bars : list Errorbar) (ax : Axes) :
  lines (draw_all bars ax) = lines ax /\
  scatters (draw_all bars ax) = scatters ax /\
  texts (draw_all bars ax) = texts ax /\
  xaxis (draw_all bars ax) = xaxis ax /\
  yaxis (draw_all bars ax) = yaxis ax /\
  legend (draw_all bars ax) = legend ax /\
  aspect (draw_all bars ax) = aspect ax.
Proof.
  revert ax. induction bars as [|e bars IH]; intros ax; [now cbn|].
  apply (IH (add_errorbar e ax)).
Qed.

Lemma for_each_app {St A} (l1 l2 : list A) (body : A -> Py St unit)
    (st : St) :
  for_each (l1 ++ l2) body st
  = match for_each l1 body st with
    | (Returns _, st') => for_each l2 body st'
    | (Raises e, st') => (Raises e, st')
    end.
Proof.
  revert st. induction l1 as [|x l1 IH]; intros st; [reflexivity|].
  cbn [app for_each]. unfold mbind, Py_bind.
  destruct (body x st) as [[[]|e] st']; [apply IH | reflexivity].
Qed.

Lemma selected_has_colour (cfg : Cfg) (s : Source) :
  selected cfg s = true -> is_Some (colors s !! color cfg).
Proof.
  unfold selected. rewrite andb_true_iff. intros [_ H].
  destruct (colors s !! color cfg); [eauto | discriminate].
Qed.

(** X3.  When a selected source has no magnitude in the red band, [cmd]
    raises the [KeyError] of that band in the middle of the loop: the
    points of the selected sources before it are already on the axes, and
    limits, labels and name are not set. *)
Theorem cmd_missing_magnitude_raises_midway (cluster : Cluster) (cfg : Cfg)
    (ax : Axes) (pre post : list Source) (s : Source) :
  sources_list cluster = pre ++ s :: post ->
  Forall (carries cfg) pre ->
  Forall (fun s' => is_Some (colors s' !! color cfg)) post ->
  selected cfg s = true -> mags s !! red_band cfg = None ->
  exists bars ax',
    cmd cluster cfg ax = (Raises (KeyError (KStr (red_band cfg))), ax') /\
    Forall2 (depicts cfg) (List.filter (selected cfg) pre) bars /\
    errorbars ax' = errorbars ax ++ bars /\
    xaxis ax' = xaxis ax /\ yaxis ax' = yaxis ax /\ texts ax' = texts ax.
Proof.
  intros Hsplit Hpre Hpost Hsel Hmag.
  assert (Hvalid : valid_sources cluster cfg
            = Returns (List.filter (selected cfg) pre ++
                       s :: List.filter (selected cfg) post)).
  { unfold valid_sources. rewrite Hsplit.
    rewrite (comprehension_if_filter _ (selected cfg)).
    - rewrite List.filter_app. cbn [List.filter]. now rewrite Hsel.
    - apply Forall_app. split; [|constructor].
      + eapply Forall_impl; [exact Hpre|].
        intros s' (Hc & _). now apply is_valid_selected.
      + apply is_valid_selected. now apply selected_has_colour.
      + eapply Forall_impl; [exact Hpost|].
        intros s' Hc. now apply is_valid_selected. }
  destruct (for_each_plot_source cfg (List.filter (selected cfg) pre))
    as (bars & Hbars & Hloop).
  { apply List.Forall_forall. intros s' Hs'. apply filter_In in Hs' as [Hs' _].
    rewrite List.Forall_forall in Hpre. now apply Hpre. }
  destruct (draw_all_frame bars ax) as (_ & _ & Ht & Hx & Hy & _ & _).
  exists bars, (draw_all bars ax).
  split; [|now rewrite errorbars_draw_all].
  unfold cmd. unfold mbind at 1, Py_bind at 1, lift at 1. rewrite Hvalid.
  unfold mbind at 1, Py_bind at 1. rewrite for_each_app, Hloop.
  cbn [for_each]. unfold mbind at 1, Py_bind at 1.
  unfold plot_source at 1, mbind at 1, Py_bind at 1, lift at 1, subscript at 1.
  now rewrite Hmag.
Qed.

Lemma cmd_missing_magnitude_raises_midway_witness :
  exists bars ax',
    cmd no_magnitude_cluster example_cfg new_axes
      = (Raises (KeyError (KStr "z")), ax') /\
    Forall2 (depicts example_cfg)
      (List.filter (selected example_cfg)
                   [example_source 1 true 0.05 (Some ∅)]) bars /\
    errorbars ax' = errorbars new_axes ++ bars /\
    xaxis ax' = xaxis new_axes /\ yaxis ax' = yaxis new_axes /\
    texts ax' = texts new_axes.
Proof.
  apply (cmd_missing_magnitude_raises_midway no_magnitude_cluster example_cfg
           new_axes [example_source 1 true 0.05 (Some ∅)]
           [example_source 3 true 0.05 (Some ∅)]
           {| ra := 150; dec := 2; mags := ∅;
              colors := {[ "r-z" := {| value := 1; error := 0.01 |} ]};
              near_center := true; RS_member := Some ∅ |}).
  - reflexivity.
  - repeat constructor; cbn; eexists; vm_compute; reflexivity.
  - repeat constructor; cbn; eexists; vm_compute; reflexivity.
  - vm_compute. reflexivity.
  - reflexivity.
Defined.

(** X4.  When [cmd] returns, the axes show the window of the configuration:
    x from [plot_lims[0]] to [plot_lims[1]], y from [plot_lims[2]] to
    [plot_lims[3]], whatever the data and whatever the axes showed before.
    The order of the limits decides the direction: the x axis runs
    backwards exactly when [plot_lims[1]] is below [plot_lims[0]], so a
    window given in increasing order puts an inverted axis the right way
    round again.  The name of the cluster is the one text added, and lines,
    scatter layers, legend and aspect ratio are as they were. *)
Theorem cmd_window_is_configured (cluster : Cluster) (cfg : Cfg) (ax : Axes) :
  Forall (carries cfg) (sources_list cluster) ->
  let ax' := snd (cmd cluster cfg ax) in
  lim (xaxis ax') = Some (lim0 cfg, lim1 cfg) /\
  lim (yaxis ax') = Some (lim2 cfg, lim3 cfg) /\
  texts ax' = texts ax ++ [ {| tx_x := 0.03; tx_y := 0.97;
                               tx_s := replace "_" " " (name cluster);
                               tx_ha := "left"; tx_va := "top" |} ] /\
  lines ax' = lines ax /\ scatters ax' = scatters ax /\
  legend ax' = legend ax /\ aspect ax' = aspect ax /\
  (inverted (xaxis ax') = true <-> (lim1 cfg < lim0 cfg)%Q) /\
  (inverted (yaxis ax') = true <-> (lim3 cfg < lim2 cfg)%Q).
Proof.
  intros Hall ax'. subst ax'.
  destruct (cmd_returns cluster cfg Hall) as (_ & bars & _ & Hcmd).
  rewrite Hcmd. cbn.
  destruct (draw_all_frame bars ax) as (-> & -> & -> & _ & _ & -> & ->).
  repeat split; try apply Qltb_lt; trivial.
Qed.

Lemma cmd_window_is_configured_witness :
  let ax' := snd (cmd example_cluster example_cfg new_axes) in
  lim (xaxis ax') = Some (lim0 example_cfg, lim1 example_cfg) /\
  lim (yaxis ax') = Some (lim2 example_cfg, lim3 example_cfg) /\
  texts ax' = texts new_axes ++
              [ {| tx_x := 0.03; tx_y := 0.97;
                   tx_s := replace "_" " " (name example_cluster);
                   tx_ha := "left"; tx_va := "top" |} ] /\
  lines ax' = lines new_axes /\ scatters ax' = scatters new_axes /\
  legend ax' = legend new_axes /\ aspect ax' = aspect new_axes /\
  (inverted (xaxis ax') = true <->
   (lim1 example_cfg < lim0 example_cfg)%Q) /\
  (inverted (yaxis ax') = true <->
   (lim3 example_cfg < lim2 example_cfg)%Q).
Proof.
  apply (cmd_window_is_configured example_cluster example_cfg new_axes).
  repeat constructor; cbn; eexists; vm_compute; reflexivity.
Defined.

(** A window given backwards inverts a fresh x axis; a window given in
    increasing order un-inverts an inverted one. *)
Example cmd_window_direction :
  inverted (xaxis (snd (cmd example_cluster
                          {| color := "r-z"; red_band := "z";
                             blue_band := "r";
                             plot_lims := (25, 18, 0, 2)%Q |} new_axes)))
  = true /\
  inverted (xaxis (snd (cmd example_cluster example_cfg
                          (on_xaxis invert new_axes)))) = false.
Proof. vm_compute. split; reflexivity. Qed.

(** X5.  A point drawn by [cmd] is red exactly when the membership dict of
    its source maps the active colour to [True]; with [False], or with no
    entry for the colour, it is black. *)
Theorem cmd_point_is_red_iff_member (cluster : Cluster) (cfg : Cfg)
    (ax : Axes) :
  Forall (carries cfg) (sources_list cluster) ->
  exists bars,
    errorbars (snd (cmd cluster cfg ax)) = errorbars ax ++ bars /\
    Forall2 (fun s e =>
               exists m, RS_member s = Some m /\
                 (eb_c e = Named nice_red \/ eb_c e = Named "k") /\
                 (eb_c e = Named nice_red <-> m !! color cfg = Some true))
            (List.filter (selected cfg) (sources_list cluster)) bars.
Proof.
  intros Hall.
  destruct (cmd_returns cluster cfg Hall) as (_ & bars & Hbars & Hcmd).
  exists bars. rewrite Hcmd. cbn. rewrite errorbars_draw_all.
  split; [reflexivity|].
  assert (Hsel : Forall (carries cfg)
                   (List.filter (selected cfg) (sources_list cluster))).
  { apply List.Forall_forall. intros s Hs. apply filter_In in Hs as [Hs _].
    rewrite List.Forall_forall in Hall. now apply Hall. }
  clear Hcmd Hall.
  induction Hbars as [|s e l bars' He _ IH]; [constructor|].
  inversion Hsel as [|? ? Hs Hl]; subst. constructor; [|now apply IH].
  destruct Hs as (_ & _ & [m Hm]). exists m. split; [exact Hm|].
  destruct He as (mg & c & col & _ & _ & Hcol & ->). cbn.
  unfold point_color, rs_member_at, subscript in Hcol. rewrite Hm in Hcol.
  unfold nice_red in *.
  destruct (m !! color cfg) as [[|]|]; injection Hcol as <-;
    (split; [auto | split; intros H; try discriminate; try reflexivity]).
Qed.

Lemma cmd_point_is_red_iff_member_witness :
  exists bars,
    errorbars (snd (cmd example_cluster example_cfg new_axes))
      = errorbars new_axes ++ bars /\
    Forall2 (fun s e =>
               exists m, RS_member s = Some m /\
                 (eb_c e = Named nice_red \/ eb_c e = Named "k") /\
                 (eb_c e = Named nice_red <->
                  m !! color example_cfg = Some true))
            (List.filter (selected example_cfg)
                         (sources_list example_cluster)) bars.
Proof.
  apply (cmd_point_is_red_iff_member example_cluster example_cfg new_axes).
  repeat constructor; cbn; eexists; vm_compute; reflexivity.
Defined.

Lemma replace_go_skip (old new t s : string) :
  replace_go old new (String.length t) (t +:+ s) = replace_go old new 0 s.
Proof. induction t as [|c t IH]; [reflexivity | exact IH]. Qed.

Lemma prefix_append (old s : string) : String.prefix old (old +:+ s) = true.
Proof.
  induction old as [|c old IH]; simpl; [now destruct s|].
  destruct (Ascii.ascii_dec c c); [exact IH | congruence].
Qed.

Lemma replace_go_no_occurrence (old new s : string) :
  no_occurrence old s = true -> replace_go old new 0 s = s.
Proof.
  induction s as [|c s IH]; [reflexivity|].
  cbn [no_occurrence replace_go]. rewrite andb_true_iff, negb_true_iff.
  intros [-> Hs]. now rewrite IH.
Qed.

(** [replace] drops a leading [old] and leaves a string without [old]
    alone. *)
Lemma replace_strips_prefix (old new s : string) :
  old <> EmptyString -> no_occurrence old s = true ->
  replace old new (old +:+ s) = new +:+ s /\
  replace old new s = s.
Proof.
  destruct old as [|c old]; [congruence|]. intros _ Hs.
  unfold replace. split; [|now apply replace_go_no_occurrence].
  change (String c old +:+ s) with (String c (old +:+ s)).
  cbn [replace_go].
  change (String c (old +:+ s)) with (String c old +:+ s).
  rewrite prefix_append.
  replace (String.length (String c old) - 1)%nat with (String.length old)
    by (cbn [String.length]; lia).
  rewrite replace_go_skip. now rewrite replace_go_no_occurrence.
Qed.

(** X6.  The axis labels drop the prefix "sloan_": with the red band
    "sloan_b" the x label of [cmd] is "b  [AB]", the same as with the band
    "b" (b holding no further "sloan_"). *)
Theorem cmd_label_drops_sloan_prefix (cluster : Cluster) (cfg : Cfg)
    (ax : Axes) (b : string) :
  Forall (carries cfg) (sources_list cluster) ->
  no_occurrence "sloan_" b = true ->
  red_band cfg = "sloan_" +:+ b \/ red_band cfg = b ->
  label (xaxis (snd (cmd cluster cfg ax))) = Some (b +:+ "  [AB]").
Proof.
  intros Hall Hb Hband.
  destruct (cmd_returns cluster cfg Hall) as (_ & bars & _ & Hcmd).
  assert (Hlabel : label (xaxis (snd (cmd cluster cfg ax)))
            = Some (replace "sloan_" EmptyString (red_band cfg) +:+ "  [AB]"))
    by (now rewrite Hcmd).
  rewrite Hlabel.
  destruct (replace_strips_prefix "sloan_" EmptyString b
              ltac:(discriminate) Hb) as [H1 H2].
  destruct Hband as [-> | ->]; [now rewrite H1 | now rewrite H2].
Qed.

Lemma cmd_label_drops_sloan_prefix_witness :
  label (xaxis (snd (cmd sloan_cluster sloan_cfg new_axes)))
  = Some ("z" +:+ "  [AB]").
Proof.
  apply (cmd_label_drops_sloan_prefix sloan_cluster sloan_cfg new_axes "z").
  - repeat constructor; cbn; eexists; vm_compute; reflexivity.
  - reflexivity.
  - left. reflexivity.
Defined.

(** ** More on the Vega axes *)

(** X7.  When the offset table lacks the blue or the red band,
    [add_vega_labels] raises the [KeyError] of the first missing one (blue
    is looked up first).  By then the ticks of the primary axes have been
    moved to the bottom and to the left; no twin axes exist, and the data
    and limits of the primary axes are untouched. *)
Theorem add_vega_labels_missing_offset (ab_to_vega : gmap string Q)
    (cfg : Cfg) (ax : Axes) :
  ab_to_vega !! blue_band cfg = None \/ ab_to_vega !! red_band cfg = None ->
  exists band ax',
    add_vega_labels ab_to_vega cfg ax = (Raises (KeyError (KStr band)), ax') /\
    ab_to_vega !! band = None /\
    (band = blue_band cfg \/
     is_Some (ab_to_vega !! blue_band cfg) /\ band = red_band cfg) /\
    ticks (xaxis ax') = Some Bottom /\ ticks (yaxis ax') = Some Left /\
    lim (xaxis ax') = lim (xaxis ax) /\ lim (yaxis ax') = lim (yaxis ax) /\
    errorbars ax' = errorbars ax /\ lines ax' = lines ax /\
    scatters ax' = scatters ax /\ texts ax' = texts ax.
Proof.
  intros Hmissing.
  unfold add_vega_labels, mbind, Py_bind, lift, modify, subscript.
  destruct (ab_to_vega !! blue_band cfg) as [blue|] eqn:Hblue.
  - destruct Hmissing as [Hb | Hred]; [discriminate|].
    rewrite Hred. exists (red_band cfg). eexists. split; [reflexivity|].
    cbn. repeat split; eauto.
  - exists (blue_band cfg). eexists. split; [reflexivity|].
    cbn. repeat split; auto.
Qed.

Lemma add_vega_labels_missing_offset_witness :
  exists band ax',
    add_vega_labels {[ "r" := (-0.16)%Q ]} example_cfg new_axes
      = (Raises (KeyError (KStr band)), ax') /\
    ({[ "r" := (-0.16)%Q ]} : gmap string Q) !! band = None /\
    (band = blue_band example_cfg \/
     is_Some (({[ "r" := (-0.16)%Q ]} : gmap string Q)
                !! blue_band example_cfg) /\
     band = red_band example_cfg) /\
    ticks (xaxis ax') = Some Bottom /\ ticks (yaxis ax') = Some Left /\
    lim (xaxis ax') = lim (xaxis new_axes) /\
    lim (yaxis ax') = lim (yaxis new_axes) /\
    errorbars ax' = errorbars new_axes /\ lines ax' = lines new_axes /\
    scatters ax' = scatters new_axes /\ texts ax' = texts new_axes.
Proof.
  apply (add_vega_labels_missing_offset {[ "r" := (-0.16)%Q ]} example_cfg
           new_axes).
  right. reflexivity.
Defined.

(** ** More on the model overlay *)

(** X9.  [add_all_models] raises before it draws anything when the models
    have no entry for the active colour ([KeyError]) and when that entry is
    an empty dict ([ValueError] of [min]): figure and axes stay as they
    were, and no colorbar is attached. *)
Theorem add_all_models_nothing_to_draw (steal_axs : list Axes) (cfg : Cfg)
    (models : gmap string ModelDict) (fig : Figure) (ax : Axes) :
  (models !! color cfg = None ->
   add_all_models steal_axs cfg models (fig, ax)
   = (Raises (KeyError (KStr (color cfg))), (fig, ax))) /\
  (models !! color cfg = Some [] ->
   add_all_models steal_axs cfg models (fig, ax)
   = (Raises (ValueError "min() arg is an empty sequence"), (fig, ax))).
Proof.
  split; intros H.
  - unfold add_all_models, mbind at 1, Py_bind at 1, lift at 1, subscript.
    now rewrite H.
  - unfold add_all_models, mbind at 1, Py_bind at 1, lift at 1, subscript.
    unfold ModelDict in *. now rewrite H.
Qed.

Lemma add_all_models_nothing_to_draw_witness :
  add_all_models [] example_cfg ∅ ({| colorbars := [] |}, new_axes)
  = (Raises (KeyError (KStr "r-z")), ({| colorbars := [] |}, new_axes)) /\
  add_all_models [] example_cfg {[ "r-z" := [] ]}
                 ({| colorbars := [] |}, new_axes)
  = (Raises (ValueError "min() arg is an empty sequence"),
     ({| colorbars := [] |}, new_axes)).
Proof.
  split.
  - apply (proj1 (add_all_models_nothing_to_draw [] example_cfg ∅
                    {| colorbars := [] |} new_axes)). reflexivity.
  - apply (proj2 (add_all_models_nothing_to_draw [] example_cfg
                    {[ "r-z" := [] ]} {| colorbars := [] |} new_axes)).
    reflexivity.
Defined.

Lemma Forall_keys_map {P : Q -> Prop} (d : ModelDict) :
  Forall P (keys d) -> Forall (fun zm => P (fst zm)) d.
Proof.
  unfold keys. induction d as [|zm d IH]; cbn; intros H; [constructor|].
  inversion H; subst. constructor; auto.
Qed.

(** X10.  Every model is drawn in the colour that a scale normalised to
    the smallest and the largest redshift gives its redshift: the line and
    the marker of a model share that colour, and every redshift lies within
    the range of the scale, so none is clipped.  This holds whether or not
    the colorbar can be made afterwards; when it is made and the two
    extreme redshifts are apart, the colorbar shows that same scale. *)
Theorem add_all_models_colours_follow_scale (steal_axs : list Axes)
    (cfg : Cfg) (models : gmap string ModelDict) (d : ModelDict)
    (fig : Figure) (ax : Axes) :
  models !! color cfg = Some d -> d <> [] -> distinct_keys d ->
  exists vmin vmax r new_lines new_markers fig' ax',
    add_all_models steal_axs cfg models (fig, ax) = (r, (fig', ax')) /\
    lines ax' = lines ax ++ new_lines /\
    scatters ax' = scatters ax ++ new_markers /\
    In vmin (keys d) /\ In vmax (keys d) /\ (vmin <= vmax)%Q /\
    Forall2 (fun zm l =>
               ln_color l = ToRgba vmin vmax (fst zm) /\
               (vmin <= fst zm)%Q /\ (fst zm <= vmax)%Q)
            d new_lines /\
    Forall2 (fun l s => sc_c s = ln_color l) new_lines new_markers /\
    (steal_axs <> [] -> singular vmin vmax = false ->
     r = Returns tt /\
     exists cb, colorbars fig' = colorbars fig ++ [cb] /\
                cb_vmin cb = vmin /\ cb_vmax cb = vmax).
Proof.
  intros Hd Hne Hdistinct.
  destruct (add_all_models_runs steal_axs cfg models d Hd Hne Hdistinct)
    as (vmin & vmax & [Hmin_in Hmin] & [Hmax_in Hmax] & Hrun).
  destruct (draw_models_fields vmin vmax d ax) as (Hl & Hs & _).
  assert (Hle : (vmin <= vmax)%Q).
  { rewrite List.Forall_forall in Hmax. now apply Hmax. }
  assert (Hcol : Forall2 (fun zm l =>
               ln_color l = ToRgba vmin vmax (fst zm) /\
               (vmin <= fst zm)%Q /\ (fst zm <= vmax)%Q)
            d (map (model_line vmin vmax) d)).
  { apply Forall_keys_map in Hmin. apply Forall_keys_map in Hmax.
    clear - Hmin Hmax.
    induction d as [|zm d IH]; cbn; constructor;
      inversion Hmin; inversion Hmax; subst; auto. }
  assert (Hmk : Forall2 (fun l s => sc_c s = ln_color l)
                  (map (model_line vmin vmax) d)
                  (map (model_marker vmin vmax) d))
    by (clear; induction d as [|zm d IH]; cbn; constructor; auto).
  destruct steal_axs as [|a l];
    (exists vmin, vmax; eexists;
     exists (map (model_line vmin vmax) d), (map (model_marker vmin vmax) d);
     do 2 eexists;
     split; [rewrite Hrun; reflexivity|];
     split; [exact Hl|]; split; [exact Hs|];
     split; [exact Hmin_in|]; split; [exact Hmax_in|]; split; [exact Hle|];
     split; [exact Hcol|]; split; [exact Hmk|]).
  - intros H. congruence.
  - intros _ Hsing. split; [reflexivity|].
    eexists. split; [reflexivity|].
    cbn [cb_vmin cb_vmax redshift_colorbar].
    now rewrite (nonsingular_regular vmin vmax 0.1 Hle).
Qed.

Lemma add_all_models_colours_follow_scale_witness :
  exists vmin vmax r new_lines new_markers fig' ax',
    add_all_models [new_axes] example_cfg example_models
                   ({| colorbars := [] |}, new_axes)
      = (r, (fig', ax')) /\
    lines ax' = lines new_axes ++ new_lines /\
    scatters ax' = scatters new_axes ++ new_markers /\
    In vmin (keys example_model_dict) /\
    In vmax (keys example_model_dict) /\ (vmin <= vmax)%Q /\
    Forall2 (fun zm l =>
               ln_color l = ToRgba vmin vmax (fst zm) /\
               (vmin <= fst zm)%Q /\ (fst zm <= vmax)%Q)
            example_model_dict new_lines /\
    Forall2 (fun l s => sc_c s = ln_color l) new_lines new_markers /\
    ([new_axes] <> [] -> singular vmin vmax = false ->
     r = Returns tt /\
     exists cb, colorbars fig' = [] ++ [cb] /\
                cb_vmin cb = vmin /\ cb_vmax cb = vmax).
Proof.
  apply (add_all_models_colours_follow_scale [new_axes] example_cfg
           example_models example_model_dict {| colorbars := [] |} new_axes).
  - reflexivity.
  - discriminate.
  - cbn. repeat split; repeat constructor; cbn; discriminate.
Defined.

Lemma draw_models_frame (vmin vmax : Q) (d : ModelDict) (ax : Axes) :
  texts (draw_models vmin vmax d ax) = texts ax /\
  legend (draw_models vmin vmax d ax) = legend ax /\
  aspect (draw_models vmin vmax d ax) = aspect ax.
Proof.
  revert ax. induction d as [|zm d IH]; intros ax; [now cbn|].
  apply (IH (add_scatter (model_marker vmin vmax zm)
               (add_line (model_line vmin vmax zm) ax))).
Qed.

(** X11.  The calls compose as the docstrings ask: [cmd], then
    [add_all_models] on the same axes with at least one axes to take room
    from, then [add_redshift] and [add_flags].  All return; the points of
    [cmd] and the window of the configuration are still there at the end,
    one line per model has been added, the figure has one more colorbar,
    and the texts are the cluster name, the redshift and the flags, in this
    order. *)
Theorem cmd_models_labels_compose (cluster : Cluster) (cfg : Cfg)
    (models : gmap string ModelDict) (d : ModelDict) (steal_axs : list Axes)
    (fig : Figure) (ax : Axes) (redshift : Redshift) (flags : Z) :
  Forall (carries cfg) (sources_list cluster) ->
  models !! color cfg = Some d -> d <> [] -> distinct_keys d ->
  steal_axs <> [] ->
  exists bars ax1 fig2 ax2 ax3,
    cmd cluster cfg ax = (Returns tt, ax1) /\
    add_all_models steal_axs cfg models (fig, ax1)
      = (Returns tt, (fig2, ax2)) /\
    (add_redshift redshift ;; add_flags flags) ax2 = (Returns tt, ax3) /\
    errorbars ax3 = errorbars ax ++ bars /\
    Forall2 (depicts cfg)
            (List.filter (selected cfg) (sources_list cluster)) bars /\
    lim (xaxis ax3) = Some (lim0 cfg, lim1 cfg) /\
    lim (yaxis ax3) = Some (lim2 cfg, lim3 cfg) /\
    length (lines ax3) = (length (lines ax) + length d)%nat /\
    length (colorbars fig2) = S (length (colorbars fig)) /\
    map tx_s (texts ax3)
      = map tx_s (texts ax) ++
        [ replace "_" " " (name cluster); redshift_text redshift;
          "flags: " +:+ pretty flags ].
Proof.
  intros Hall Hd Hne Hdistinct Hsteal.
  destruct (cmd_returns cluster cfg Hall) as (_ & bars & Hbars & Hcmd).
  destruct (add_all_models_runs steal_axs cfg models d Hd Hne Hdistinct)
    as (vmin & vmax & _ & _ & Hrun).
  destruct steal_axs as [|a steal_axs]; [congruence|].
  set (ax1 := decorate cluster cfg (draw_all bars ax)).
  destruct (draw_models_fields vmin vmax d ax1) as (Hl & _ & He & Hx & Hy).
  destruct (draw_models_frame vmin vmax d ax1) as (Ht & _ & _).
  destruct (draw_all_frame bars ax) as (Hl0 & _ & Ht0 & _).
  exists bars, ax1. do 3 eexists.
  split; [apply Hcmd|]. split; [apply Hrun|]. split; [reflexivity|].
  cbn. rewrite He, Hx, Hy, Hl, Ht. subst ax1. cbn.
  rewrite errorbars_draw_all, Hl0, Ht0.
  rewrite !length_app, length_map, !map_app. cbn.
  repeat split; trivial; try lia.
  now rewrite <- !app_assoc.
Qed.

Lemma cmd_models_labels_compose_witness :
  exists bars ax1 fig2 ax2 ax3,
    cmd example_cluster example_cfg new_axes = (Returns tt, ax1) /\
    add_all_models [new_axes] example_cfg example_models
                   ({| colorbars := [] |}, ax1)
      = (Returns tt, (fig2, ax2)) /\
    (add_redshift (Number 0.5) ;; add_flags 0) ax2 = (Returns tt, ax3) /\
    errorbars ax3 = errorbars new_axes ++ bars /\
    Forall2 (depicts example_cfg)
            (List.filter (selected example_cfg)
                         (sources_list example_cluster)) bars /\
    lim (xaxis ax3) = Some (lim0 example_cfg, lim1 example_cfg) /\
    lim (yaxis ax3) = Some (lim2 example_cfg, lim3 example_cfg) /\
    length (lines ax3)
      = (length (lines new_axes) + length example_model_dict)%nat /\
    length (colorbars fig2) = 1%nat /\
    map tx_s (texts ax3)
      = map tx_s (texts new_axes) ++
        [ replace "_" " " (name example_cluster);
          redshift_text (Number 0.5); "flags: " +:+ pretty 0%Z ].
Proof.
  apply (cmd_models_labels_compose example_cluster example_cfg example_models
           example_model_dict [new_axes] {| colorbars := [] |} new_axes
           (Number 0.5) 0).
  - repeat constructor; cbn; eexists; vm_compute; reflexivity.
  - reflexivity.
  - discriminate.
  - cbn. repeat split; repeat constructor; cbn; discriminate.
  - discriminate.
Defined.

(** ** More on the redshift label *)

Lemma round_half_even_opp (n : Z) (d : positive) :
  round_half_even (Qmake (- n) d) = (- round_half_even (Qmake n d))%Z.
Proof.
  unfold round_half_even. cbn [Qnum Qden].
  pose proof (Z.div_mod n (Z.pos d) ltac:(lia)) as Hdm.
  pose proof (Z.mod_pos_bound n (Z.pos d) ltac:(lia)) as Hb.
  pose proof (Z.div_mod (- n) (Z.pos d) ltac:(lia)) as Hdm'.
  pose proof (Z.mod_pos_bound (- n) (Z.pos d) ltac:(lia)) as Hb'.
  set (q := (n / Z.pos d)%Z) in *. set (r := (n mod Z.pos d)%Z) in *.
  set (q' := (- n / Z.pos d)%Z) in *. set (r' := (- n mod Z.pos d)%Z) in *.
  assert (Hsum : (q + q' = 0 \/ q + q' = -1)%Z) by nia.
  assert (Hcases : (r = 0 /\ r' = 0 /\ q' = - q)%Z \/
                   (0 < r /\ r' = Z.pos d - r /\ q' = - q - 1)%Z).
  { destruct Hsum as [Hs | Hs]; [left | right]; nia. }
  destruct Hcases as [(Hr & Hr' & Hq') | (Hr & Hr' & Hq')].
  - rewrite Hr, Hr', Hq'. cbn. reflexivity.
  - destruct (Z.compare_spec (2 * r) (Z.pos d)) as [He | Hl | Hg];
      destruct (Z.compare_spec (2 * r') (Z.pos d)) as [He' | Hl' | Hg'];
      try lia.
    rewrite Hq'.
    replace (- q - 1)%Z with (- Z.succ q)%Z by lia.
    rewrite Z.even_opp, Z.even_succ, <- Z.negb_even.
    destruct (Z.even q); cbn [negb]; lia.
Qed.

Lemma round2_opp (x : Q) :
  (0 < x)%Q ->
  round2 (- x) = {| negative := true; hundredths := hundredths (round2 x) |}.
Proof.
  intros Hx. unfold round2. cbn [hundredths]. f_equal.
  - apply Qltb_lt. unfold Qlt in *. destruct x as [n d]. cbn in *. lia.
  - destruct x as [n d].
    change ((- (n # d)) * 100)%Q with (Qmake (- n * 100) (d * 1)).
    change ((n # d) * 100)%Q with (Qmake (n * 100) (d * 1)).
    rewrite Z.mul_opp_l, round_half_even_opp. apply Z.abs_opp.
Qed.

(** X12.  A non-negative value that is a whole number of hundredths is
    labelled as it is: [round(x, 2)] does not move it, so 0.37 is labelled
    0.37 and 1.5 is labelled 1.5. *)
Theorem add_redshift_keeps_hundredths (x : Q) (k : Z) :
  (0 <= k)%Z -> (x * 100 == inject_Z k)%Q ->
  round2 x = {| negative := false; hundredths := k |} /\
  redshift_text (Number x)
  = "z=" +:+ str {| negative := false; hundredths := k |}.
Proof.
  intros Hk Hx.
  assert (Hr : round2 x = {| negative := false; hundredths := k |}).
  { apply round2_near; trivial.
    - unfold Qeq, Qle, inject_Z in *. destruct x as [n d]. cbn in *. nia.
    - rewrite Hx. unfold Qlt, Qminus, Qplus, Qopp, inject_Z. cbn. lia.
    - rewrite Hx. unfold Qlt, Qminus, Qplus, Qopp, inject_Z. cbn. lia. }
  split; [exact Hr|]. unfold redshift_text. now rewrite Hr.
Qed.

Lemma add_redshift_keeps_hundredths_witness :
  redshift_text (Number 0.37) = "z=0.37" /\
  redshift_text (Number 1.5) = "z=1.5".
Proof.
  split.
  - apply (proj2 (add_redshift_keeps_hundredths 0.37 37 ltac:(lia)
                    ltac:(reflexivity))).
  - apply (proj2 (add_redshift_keeps_hundredths 1.5 150 ltac:(lia)
                    ltac:(reflexivity))).
Defined.

(** X13.  The label of a negative number is that of its absolute value
    after a minus sign: rounding is symmetric about zero, and the sign
    stays when the value rounds to zero (-0.001 is labelled -0.0). *)
Theorem add_redshift_negative_number (x : Q) :
  (0 < x)%Q ->
  hundredths (round2 (- x)) = hundredths (round2 x) /\
  negative (round2 (- x)) = true /\ negative (round2 x) = false /\
  redshift_text (Number (- x)) = "z=-" +:+ str (round2 x).
Proof.
  intros Hx. rewrite (round2_opp x Hx). cbn [hundredths negative].
  assert (Hpos : negative (round2 x) = false).
  { apply Qltb_ge. now apply Qlt_le_weak. }
  repeat split; trivial.
  unfold redshift_text. rewrite (round2_opp x Hx).
  unfold str. cbn [negative hundredths]. rewrite Hpos. reflexivity.
Qed.

Lemma add_redshift_negative_number_witness :
  redshift_text (Number (- 0.001)) = "z=-" +:+ str (round2 0.001).
Proof.
  apply (add_redshift_negative_number 0.001). reflexivity.
Defined.

(** ** More on the sky map *)

Lemma sort_sources_filters (color : string) (sources : list Source) :
  Forall (flag_set color) sources ->
  forall acc,
    sort_sources color sources acc
    = Returns
        {| rs_member_ra :=
             rs_member_ra acc ++ map ra (List.filter (is_member color) sources);
           rs_member_dec :=
             rs_member_dec acc ++
             map dec (List.filter (is_member color) sources);
           center_ra :=
             center_ra acc ++ map ra (List.filter (in_centre color) sources);
           center_dec :=
             center_dec acc ++ map dec (List.filter (in_centre color) sources);
           rest_ra :=
             rest_ra acc ++ map ra (List.filter (in_rest color) sources);
           rest_dec :=
             rest_dec acc ++ map dec (List.filter (in_rest color) sources) |}.
Proof.
  induction 1 as [|s sources [b Hb] _ IH]; intros acc.
  - cbn. rewrite !app_nil_r. now destruct acc.
  - assert (Hm : is_member color s = match b with true => true | false => false end)
      by (unfold is_member; rewrite Hb; now destruct b).
    cbn [sort_sources List.filter]. unfold in_centre, in_rest. rewrite Hm.
    unfold sort_source. rewrite Hb.
    destruct b; [|destruct (near_center s)]; cbn; rewrite IH; cbn;
      rewrite <- ?app_assoc; reflexivity.
Qed.

Lemma location_state (cluster : Cluster) (color : string) (ax : Axes) :
  sources_list cluster <> [] ->
  Forall (flag_set color) (sources_list cluster) ->
  exists lo hi,
    (In lo (map dec (sources_list cluster)) /\
     Forall (fun d => (lo <= d)%Q) (map dec (sources_list cluster))) /\
    (In hi (map dec (sources_list cluster)) /\
     Forall (fun d => (d <= hi)%Q) (map dec (sources_list cluster))) /\
    location cluster color ax
    = (Returns tt,
       set_aspect (aspect_ratio ((lo + hi) / 2))
         (sky_decorate cluster (sky_layers color (sources_list cluster)) ax)).
Proof.
  intros Hne Hflags.
  pose proof (sort_sources_filters color _ Hflags no_lists) as Hsort.
  cbn [no_lists rs_member_ra rs_member_dec center_ra center_dec rest_ra
       rest_dec app] in Hsort.
  destruct (sort_sources_returns color _ Hflags no_lists) as (l & Hl & Hperm).
  cbn in Hperm.
  assert (Hdecs : all_decs l <> []).
  { intros Hnil. rewrite Hnil in Hperm.
    apply Permutation_nil in Hperm. destruct (sources_list cluster);
      [congruence | discriminate]. }
  destruct (py_min_spec _ Hdecs) as (lo & Hlo & Hlo_in & Hlo_le).
  destruct (py_max_spec _ Hdecs) as (hi & Hhi & Hhi_in & Hhi_le).
  exists lo, hi. split; [split|split; [split|]].
  - eapply Permutation_in; eassumption.
  - eapply Permutation_Forall; eassumption.
  - eapply Permutation_in; eassumption.
  - eapply Permutation_Forall; eassumption.
  - rewrite Hsort in Hl. injection Hl as <-. unfold all_decs in Hlo, Hhi.
    cbn [rs_member_dec center_dec rest_dec] in Hlo, Hhi.
    unfold location, mbind, Py_bind, lift, modify. rewrite Hsort.
    cbn [rs_member_ra rs_member_dec center_ra center_dec rest_ra rest_dec].
    rewrite Hlo, Hhi. reflexivity.
Qed.

(** X14.  [location] plots every source once, in one of three layers drawn
    in this order: light grey for the sources that are neither members nor
    near the centre, dark grey (legend "Location Cut") for those near the
    centre that are not members, red for the members, near the centre or
    not.  Each layer keeps the order of the cluster, and its right
    ascensions and declinations come from the same sources. *)
Theorem location_layers (cluster : Cluster) (color : string) (ax : Axes) :
  sources_list cluster <> [] ->
  Forall (flag_set color) (sources_list cluster) ->
  let l := sources_list cluster in
  let ax' := snd (location cluster color ax) in
  fst (location cluster color ax) = Returns tt /\
  scatters ax' = scatters ax ++ sky_layers color l /\
  legend ax' = true /\ errorbars ax' = errorbars ax /\ lines ax' = lines ax /\
  List.filter (is_member color) l ++ List.filter (in_centre color) l ++
    List.filter (in_rest color) l ≡ₚ l /\
  (forall s, in_centre color s = true -> near_center s = true) /\
  (forall s, in_rest color s = true -> near_center s = false).
Proof.
  intros Hne Hflags l ax'. subst l ax'.
  destruct (location_state cluster color ax Hne Hflags)
    as (lo & hi & _ & _ & Hloc).
  rewrite Hloc. cbn. rewrite <- !app_assoc.
  repeat split; trivial.
  - clear. induction (sources_list cluster) as [|s l IH]; [reflexivity|].
    cbn [List.filter]. unfold in_centre, in_rest.
    destruct (is_member color s), (near_center s); cbn [negb andb app].
    + now constructor.
    + now constructor.
    + rewrite <- Permutation_middle. now constructor.
    + rewrite app_assoc, <- Permutation_middle, <- app_assoc.
      now constructor.
  - unfold in_centre. intros s. rewrite andb_true_iff. now intros [_ H].
  - unfold in_rest. intros s. rewrite andb_true_iff. intros [_ H].
    now apply negb_true_iff in H.
Qed.

Lemma location_layers_witness :
  let l := sources_list pair_cluster in
  let ax' := snd (location pair_cluster "r-z" new_axes) in
  fst (location pair_cluster "r-z" new_axes) = Returns tt /\
  scatters ax' = scatters new_axes ++ sky_layers "r-z" l /\
  legend ax' = true /\ errorbars ax' = errorbars new_axes /\
  lines ax' = lines new_axes /\
  List.filter (is_member "r-z") l ++ List.filter (in_centre "r-z") l ++
    List.filter (in_rest "r-z") l ≡ₚ l /\
  (forall s, in_centre "r-z" s = true -> near_center s = true) /\
  (forall s, in_rest "r-z" s = true -> near_center s = false).
Proof.
  apply (location_layers pair_cluster "r-z" new_axes).
  - discriminate.
  - repeat constructor; eexists; vm_compute; reflexivity.
Defined.

Lemma aspect_ratio_Qeq (m1 m2 : Q) :
  (m1 == m2)%Q -> aspect_ratio m1 = aspect_ratio m2.
Proof. intros H. unfold aspect_ratio. now rewrite (Qreals.Qeq_eqR _ _ H). Qed.

Lemma aspect_ratio_at_least_one (m : Q) :
  (-90 < m)%Q -> (m < 90)%Q -> (1 <= aspect_ratio m)%R.
Proof.
  intros Hlo Hhi. unfold aspect_ratio.
  apply Qreals.Qlt_Rlt in Hlo, Hhi.
  replace (Q2R (-90)) with (-90)%R in Hlo by (unfold Q2R; cbn; lra).
  replace (Q2R 90) with 90%R in Hhi by (unfold Q2R; cbn; lra).
  pose proof PI_RGT_0 as Hpi.
  set (x := (Q2R m * PI / 180)%R).
  assert (Hx : (- (PI / 2) < x < PI / 2)%R).
  { unfold x. split; nra. }
  rewrite cos_Rabs.
  assert (Hcos : (0 < cos x)%R) by (apply cos_gt_0; lra).
  pose proof (COS_bound x) as [_ Hle].
  unfold Rdiv. rewrite Rmult_1_l.
  rewrite <- Rinv_1 at 1. apply Rinv_le_contravar; assumption.
Qed.

(** X15.  For declinations between the poles (every source strictly
    between -90 and 90 degrees) the aspect ratio that [location] sets is a
    stretch: it is at least 1. *)
Theorem location_aspect_at_least_one (cluster : Cluster) (color : string)
    (ax : Axes) :
  sources_list cluster <> [] ->
  Forall (flag_set color) (sources_list cluster) ->
  Forall (fun s => (-90 < dec s)%Q /\ (dec s < 90)%Q) (sources_list cluster) ->
  exists r, aspect (snd (location cluster color ax)) = Some r /\ (1 <= r)%R.
Proof.
  intros Hne Hflags Hrange.
  destruct (location_state cluster color ax Hne Hflags)
    as (lo & hi & [Hlo _] & [Hhi _] & Hloc).
  rewrite Hloc. eexists. split; [reflexivity|].
  apply in_map_iff in Hlo as (s1 & <- & Hs1).
  apply in_map_iff in Hhi as (s2 & <- & Hs2).
  rewrite List.Forall_forall in Hrange.
  destruct (Hrange s1 Hs1) as [H1 H1']. destruct (Hrange s2 Hs2) as [H2 H2'].
  apply aspect_ratio_at_least_one.
  - unfold Qlt, Qdiv, Qmult, Qplus, Qinv in *. cbn in *. nia.
  - unfold Qlt, Qdiv, Qmult, Qplus, Qinv in *. cbn in *. nia.
Qed.

Lemma location_aspect_at_least_one_witness :
  exists r, aspect (snd (location pair_cluster "r-z" new_axes)) = Some r /\
            (1 <= r)%R.
Proof.
  apply (location_aspect_at_least_one pair_cluster "r-z" new_axes).
  - discriminate.
  - repeat constructor; eexists; vm_compute; reflexivity.
  - repeat constructor.
Defined.

Lemma extremes_agree (l1 l2 : list Q) (lo1 lo2 hi1 hi2 : Q) :
  l1 ≡ₚ l2 ->
  In lo1 l1 -> Forall (fun d => (lo1 <= d)%Q) l1 ->
  In lo2 l2 -> Forall (fun d => (lo2 <= d)%Q) l2 ->
  In hi1 l1 -> Forall (fun d => (d <= hi1)%Q) l1 ->
  In hi2 l2 -> Forall (fun d => (d <= hi2)%Q) l2 ->
  ((lo1 + hi1) / 2 == (lo2 + hi2) / 2)%Q.
Proof.
  intros Hperm Hlo1 Hle1 Hlo2 Hle2 Hhi1 Hge1 Hhi2 Hge2.
  rewrite List.Forall_forall in Hle1, Hle2, Hge1, Hge2.
  assert (Hlo : (lo1 == lo2)%Q).
  { apply Qle_antisym.
    - apply Hle1. eapply Permutation_in; [symmetry|]; eassumption.
    - apply Hle2. eapply Permutation_in; eassumption. }
  assert (Hhi : (hi1 == hi2)%Q).
  { apply Qle_antisym.
    - apply Hge2. eapply Permutation_in; eassumption.
    - apply Hge1. eapply Permutation_in; [symmetry|]; eassumption. }
  now rewrite Hlo, Hhi.
Qed.

(** X16.  The aspect ratio depends on the declinations only: two clusters
    with the same declinations, in any order and with any membership and
    any colour, get the same aspect ratio. *)
Theorem location_aspect_depends_on_declinations (c1 c2 : Cluster)
    (color1 color2 : string) (ax1 ax2 : Axes) :
  sources_list c1 <> [] ->
  Forall (flag_set color1) (sources_list c1) ->
  Forall (flag_set color2) (sources_list c2) ->
  map dec (sources_list c1) ≡ₚ map dec (sources_list c2) ->
  aspect (snd (location c1 color1 ax1)) = aspect (snd (location c2 color2 ax2)) /\
  is_Some (aspect (snd (location c1 color1 ax1))).
Proof.
  intros Hne1 Hf1 Hf2 Hperm.
  assert (Hne2 : sources_list c2 <> []).
  { intros Hnil. rewrite Hnil in Hperm. cbn in Hperm.
    apply Permutation_nil_r in Hperm.
    destruct (sources_list c1); [congruence | discriminate]. }
  destruct (location_state c1 color1 ax1 Hne1 Hf1)
    as (lo1 & hi1 & [Hlo1 Hle1] & [Hhi1 Hge1] & ->).
  destruct (location_state c2 color2 ax2 Hne2 Hf2)
    as (lo2 & hi2 & [Hlo2 Hle2] & [Hhi2 Hge2] & ->).
  cbn. split; [|eauto]. f_equal. apply aspect_ratio_Qeq.
  eapply extremes_agree; eassumption.
Qed.

Lemma location_aspect_depends_on_declinations_witness :
  aspect (snd (location pair_cluster "r-z" new_axes))
  = aspect (snd (location reversed_pair_cluster "g-r" new_axes)) /\
  is_Some (aspect (snd (location pair_cluster "r-z" new_axes))).
Proof.
  apply (location_aspect_depends_on_declinations pair_cluster
           reversed_pair_cluster "r-z" "g-r" new_axes new_axes).
  - discriminate.
  - repeat constructor; eexists; vm_compute; reflexivity.
  - repeat constructor; eexists; vm_compute; reflexivity.
  - cbn. apply perm_swap.
Defined.

(** X17.  [location] flips the x axis each time it is called: after a
    second call on the same axes the right ascension runs the way it did
    at the start, and the three layers are there twice. *)
Theorem location_twice_restores_x_axis (cluster : Cluster) (color : string)
    (ax : Axes) :
  sources_list cluster <> [] ->
  Forall (flag_set color) (sources_list cluster) ->
  exists ax1 ax2,
    location cluster color ax = (Returns tt, ax1) /\
    location cluster color ax1 = (Returns tt, ax2) /\
    inverted (xaxis ax1) = negb (inverted (xaxis ax)) /\
    inverted (xaxis ax2) = inverted (xaxis ax) /\
    aspect ax2 = aspect ax1 /\
    scatters ax2
    = scatters ax ++ sky_layers color (sources_list cluster)
                  ++ sky_layers color (sources_list cluster).
Proof.
  intros Hne Hflags.
  destruct (location_state cluster color ax Hne Hflags)
    as (lo & hi & Hlo & Hhi & Hloc).
  set (ax1 := set_aspect (aspect_ratio ((lo + hi) / 2))
                (sky_decorate cluster
                   (sky_layers color (sources_list cluster)) ax)) in *.
  destruct (location_state cluster color ax1 Hne Hflags)
    as (lo' & hi' & Hlo' & Hhi' & Hloc').
  exists ax1. eexists. split; [exact Hloc|]. split; [exact Hloc'|].
  cbn. rewrite negb_involutive, <- !app_assoc. repeat split.
  f_equal. apply aspect_ratio_Qeq.
  destruct Hlo, Hhi, Hlo', Hhi'.
  eapply (extremes_agree (map dec (sources_list cluster))
            (map dec (sources_list cluster))); eauto.
Qed.

Lemma location_twice_restores_x_axis_witness :
  exists ax1 ax2,
    location pair_cluster "r-z" new_axes = (Returns tt, ax1) /\
    location pair_cluster "r-z" ax1 = (Returns tt, ax2) /\
    inverted (xaxis ax1) = negb (inverted (xaxis new_axes)) /\
    inverted (xaxis ax2) = inverted (xaxis new_axes) /\
    aspect ax2 = aspect ax1 /\
    scatters ax2
    = scatters new_axes ++ sky_layers "r-z" (sources_list pair_cluster)
                        ++ sky_layers "r-z" (sources_list pair_cluster).
Proof.
  apply (location_twice_restores_x_axis pair_cluster "r-z" new_axes).
  - discriminate.
  - repeat constructor; eexists; vm_compute; reflexivity.
Defined.

(** X18.  For a cluster of one source the middle declination is the
    declination of that source: the aspect ratio is 1 / cos(dec). *)
Theorem location_single_source (name : string) (s : Source) (color : string)
    (ax : Axes) :
  flag_set color s ->
  let cluster := {| name := name; sources_list := [s] |} in
  fst (location cluster color ax) = Returns tt /\
  aspect (snd (location cluster color ax))
  = Some (/ cos (Q2R (dec s) * PI / 180))%R.
Proof.
  intros Hflag cluster.
  destruct (location_state cluster color ax) as (lo & hi & Hlo & Hhi & ->).
  { discriminate. }
  { now constructor. }
  split; [reflexivity|]. cbn [snd aspect set_aspect]. f_equal.
  destruct Hlo as [[<- | []] _], Hhi as [[<- | []] _].
  rewrite aspect_ratio_mean. f_equal. f_equal. lra.
Qed.

Lemma location_single_source_witness :
  let s := example_source 30 true 0.1 (Some {[ "r-z" := false ]}) in
  let cluster := {| name := "one"; sources_list := [s] |} in
  fst (location cluster "r-z" new_axes) = Returns tt /\
  aspect (snd (location cluster "r-z" new_axes))
  = Some (/ cos (Q2R (dec s) * PI / 180))%R.
Proof.
  apply (location_single_source "one"
           (example_source 30 true 0.1 (Some {[ "r-z" := false ]}))
           "r-z" new_axes).
  eexists. vm_compute. reflexivity.
Defined.
